(** * Tensile toolchain validators

    A shallow embedding of [tensilelite/Tensile/Toolchain/Validators.py]:
    the platform defaults, the component classifier, the executable
    resolver and the version extractor, with the properties that the
    design document states about them.

    Python values are modelled as follows.  A [str] is a [string] whose
    characters are read as code points below 256.  An exception is a class
    together with the text of [str(e)].  Code that touches the host (the
    environment, the filesystem, a child process) runs in the monad [M],
    which threads the log of the host calls made so far and may raise. *)

From Stdlib Require Import String Ascii List Bool Arith ZArith Lia DecimalString.
Import ListNotations.
Local Open Scope list_scope.
Local Open Scope string_scope.


(* ================================================================== *)
(** ** Python strings *)

Module PyStr.

Definition chr (n : nat) : ascii := ascii_of_nat n.
Definition ord (c : ascii) : nat := nat_of_ascii c.

(** The characters that have no literal form in this file. *)
Definition dquote : string := String (chr 34) "".
Definition LF : ascii := chr 10.

Definition is_empty (s : string) : bool :=
  match s with "" => true | _ => false end.

(** [first s] is the slice [s[0:1]], as an optional character. *)
Definition first (s : string) : option ascii :=
  match s with "" => None | String c _ => Some c end.

Definition char_is (c : ascii) (o : option ascii) : bool :=
  match o with Some d => Ascii.eqb c d | None => false end.

(** [drop n s] is the slice [s[n:]] and [take n s] the slice [s[:n]]. *)
Fixpoint drop (n : nat) (s : string) : string :=
  match n, s with
  | S n', String _ s' => drop n' s'
  | _, _ => s
  end.

Fixpoint take (n : nat) (s : string) : string :=
  match n, s with
  | S n', String c s' => String c (take n' s')
  | _, _ => ""
  end.

(** [str.split(sep)] for a separator of one character: the pieces
    between the separators, empty pieces included; never an empty list. *)
Fixpoint split (sep : ascii) (s : string) : list string :=
  match s with
  | "" => [""]
  | String c s' =>
      if Ascii.eqb c sep then "" :: split sep s'
      else match split sep s' with
           | [] => [String c ""]
           | p :: ps => String c p :: ps
           end
  end.

(** [sep.join(l)]. *)
Definition join (sep : string) (l : list string) : string := String.concat sep l.

(** [s.lstrip(c)] for a single character [c]. *)
Fixpoint lstrip_char (c : ascii) (s : string) : string :=
  match s with
  | String d s' => if Ascii.eqb d c then lstrip_char c s' else s
  | "" => ""
  end.

(** [s.replace(a, b)] for single characters. *)
Fixpoint replace_char (a b : ascii) (s : string) : string :=
  match s with
  | "" => ""
  | String c s' => String (if Ascii.eqb c a then b else c) (replace_char a b s')
  end.

(** [s.find(c, start)]: the index of the first [c] at or after [start]. *)
Fixpoint find_from (c : ascii) (start : nat) (s : string) : option nat :=
  match s with
  | "" => None
  | String d s' =>
      match start with
      | S n => option_map S (find_from c n s')
      | 0 => if Ascii.eqb d c then Some 0
             else option_map S (find_from c 0 s')
      end
  end.

Definition startswith (p s : string) : bool := String.prefix p s.

Fixpoint endswith_rev (p s : list ascii) : bool :=
  match p, s with
  | [], _ => true
  | a :: p', b :: s' => Ascii.eqb a b && endswith_rev p' s'
  | _ :: _, [] => false
  end.

Definition endswith (suffix s : string) : bool :=
  endswith_rev (rev (list_ascii_of_string suffix)) (rev (list_ascii_of_string s)).

Fixpoint contains_char (c : ascii) (s : string) : bool :=
  match s with
  | "" => false
  | String d s' => Ascii.eqb d c || contains_char c s'
  end.

Definition in_range (lo hi n : nat) : bool := Nat.leb lo n && Nat.leb n hi.

(** [c.isspace()] on the code points below 256. *)
Definition isspace (c : ascii) : bool :=
  let n := ord c in
  in_range 9 13 n || in_range 28 32 n || Nat.eqb n 133 || Nat.eqb n 160.

(** The decimal digits below 256 are the ASCII ones. *)
Definition isdigit (c : ascii) : bool := in_range 48 57 (ord c).

(** [c.lower()] and [c.upper()] on the code points below 256 (the two
    letters whose other case lies above 255 are left alone). *)
Definition lower_char (c : ascii) : ascii :=
  let n := ord c in
  if in_range 65 90 n || (in_range 192 222 n && negb (Nat.eqb n 215))
  then chr (n + 32) else c.

Definition upper_char (c : ascii) : ascii :=
  let n := ord c in
  if in_range 97 122 n || (in_range 224 254 n && negb (Nat.eqb n 247))
  then chr (n - 32) else c.

Fixpoint lower (s : string) : string :=
  match s with
  | "" => ""
  | String c s' => String (lower_char c) (lower s')
  end.

Fixpoint upper (s : string) : string :=
  match s with
  | "" => ""
  | String c s' => String (upper_char c) (upper s')
  end.

Fixpoint lstrip (s : string) : string :=
  match s with
  | String c s' => if isspace c then lstrip s' else s
  | "" => ""
  end.

Fixpoint rstrip (s : string) : string :=
  match s with
  | String c s' =>
      let r := rstrip s' in
      if is_empty r && isspace c then "" else String c r
  | "" => ""
  end.

(** [s.strip()]: leading and trailing whitespace removed. *)
Definition strip (s : string) : string := rstrip (lstrip s).

(** The longest prefix of [s] made of characters satisfying [p], and
    what follows it. *)
Fixpoint span (p : ascii -> bool) (s : string) : string * string :=
  match s with
  | String c s' =>
      if p c then let (a, b) := span p s' in (String c a, b) else ("", s)
  | "" => ("", "")
  end.

Fixpoint forallb (p : ascii -> bool) (s : string) : bool :=
  match s with
  | "" => true
  | String c s' => p c && forallb p s'
  end.

End PyStr.

(* ================================================================== *)
(** ** Exceptions and results *)

Inductive exn_class : Type :=
| ValueError | FileNotFoundError | KeyError | RuntimeError | IndexError
| OSError | PermissionError | UnicodeDecodeError | ReError.

(** An exception: its class and the text of [str(e)]. *)
Inductive exn : Type := Exn (c : exn_class) (msg : string).

Definition exn_cls (e : exn) : exn_class := let (c, _) := e in c.
Definition exn_str (e : exn) : string := let (_, m) := e in m.

Definition exn_class_eqb (a b : exn_class) : bool :=
  match a, b with
  | ValueError, ValueError | FileNotFoundError, FileNotFoundError
  | KeyError, KeyError | RuntimeError, RuntimeError
  | IndexError, IndexError | OSError, OSError
  | PermissionError, PermissionError
  | UnicodeDecodeError, UnicodeDecodeError | ReError, ReError => true
  | _, _ => false
  end.

(** A computation that returns or raises. *)
Definition result (A : Type) : Type := (exn + A)%type.
Definition Ok {A} (a : A) : result A := inr a.
Definition Raise {A} (e : exn) : result A := inl e.

Definition rbind {A B} (r : result A) (k : A -> result B) : result B :=
  match r with inl e => inl e | inr a => k a end.

Fixpoint rmap {A B} (f : A -> result B) (l : list A) : result (list B) :=
  match l with
  | [] => Ok []
  | x :: xs => rbind (f x) (fun y => rbind (rmap f xs) (fun ys => Ok (y :: ys)))
  end.

(** [os.name]. *)
Inductive OsName : Type := posix | nt.

Definition os_name_str (o : OsName) : string :=
  match o with posix => "posix" | nt => "nt" end.

(* ================================================================== *)
(** ** Paths

    [pathlib.Path] as the program uses it: built from one string, joined
    with a string by [/], printed by [str], and asked for its [name].  The
    parsing is the one of CPython's pathlib: [PosixPath] where [os.name] is
    [posix] and [WindowsPath] where it is [nt]. *)

Module Pathlib.
Import PyStr.

(** A parsed path: the drive, the root, and the components after them.
    (pathlib's [_parts] is [drv + root], when not empty, then [tail].) *)
Record PurePath : Type := mkPath {
  drv : string;
  root : string;
  tail : list string
}.

Definition sep (o : OsName) : ascii :=
  match o with posix => "/"%char | nt => "\"%char end.

Definition sep_str (o : OsName) : string := String (sep o) "".

(** [_PosixFlavour.splitroot]: exactly two leading slashes are kept as a
    root of their own, any other number is a single slash. *)
Definition posix_splitroot (part : string) : string * string * string :=
  if char_is "/" (first part) then
    let stripped := lstrip_char "/" part in
    if Nat.eqb (String.length part - String.length stripped) 2
    then ("", "//", stripped)
    else ("", "/", stripped)
  else ("", "", part).

(** [_WindowsFlavour._split_extended_path]. *)
Definition split_extended_path (s : string) : string * string :=
  if startswith "\\?\" s then
    let prefix := take 4 s in
    let s := drop 4 s in
    if startswith "UNC\" s then (prefix ++ take 3 s, "\" ++ drop 3 s)
    else (prefix, s)
  else ("", s).

Definition is_drive_letter (o : option ascii) : bool :=
  match o with
  | Some c => in_range 65 90 (ord c) || in_range 97 122 (ord c)
  | None => false
  end.

(** [_WindowsFlavour.splitroot], on a part whose [/] are already [\]. *)
Definition nt_splitroot (part0 : string) : string * string * string :=
  let bs := "\"%char in
  let '(prefix, part) :=
    if char_is bs (first (drop 1 part0)) && char_is bs (first part0)
    then split_extended_path part0 else ("", part0) in
  let c1 := first part in
  let c2 := first (drop 1 part) in
  let c3 := first (drop 2 part) in
  let plain :=
    let '(d, part, c1) :=
      if char_is ":" c2 && is_drive_letter c1
      then (take 2 part, drop 2 part, c3) else ("", part, c1) in
    let '(r, part) :=
      if char_is bs c1 then ("\", lstrip_char bs part) else ("", part) in
    (prefix ++ d, r, part) in
  if char_is bs c2 && char_is bs c1 && negb (char_is bs c3) then
    (* a UNC path: \\machine\mountpoint\directory\... *)
    match find_from bs 2 part with
    | Some index =>
        let index2 := find_from bs (index + 1) part in
        match index2 with
        | Some i2 =>
            if Nat.eqb i2 (index + 1) then plain
            else if is_empty prefix
                 then (take i2 part, "\", drop (i2 + 1) part)
                 else (prefix ++ take (i2 - 1) (drop 1 part), "\", drop (i2 + 1) part)
        | None =>
            let i2 := String.length part in
            if is_empty prefix
            then (take i2 part, "\", drop (i2 + 1) part)
            else (prefix ++ take (i2 - 1) (drop 1 part), "\", drop (i2 + 1) part)
        end
    | None => plain
    end
  else plain.

Definition splitroot (o : OsName) (part : string) : string * string * string :=
  match o with posix => posix_splitroot part | nt => nt_splitroot part end.

Definition keep_component (x : string) : bool :=
  negb (is_empty x) && negb (String.eqb x ".").

(** [Path(s)]: [_Flavour.parse_parts] on the single part [s].  An empty
    part is skipped; on Windows [/] is first replaced by [\]; empty and
    [.] components are dropped. *)
Definition Path (o : OsName) (s : string) : PurePath :=
  if is_empty s then mkPath "" "" []
  else
    let part := match o with nt => replace_char "/" "\" s | posix => s end in
    let '(d, r, rel) := splitroot o part in
    mkPath d r (filter keep_component (split (sep o) rel)).

(** [_Flavour.join_parsed_parts]. *)
Definition join_parsed_parts (p q : PurePath) : PurePath :=
  if negb (is_empty (root q)) then
    if is_empty (drv q) && negb (is_empty (drv p))
    then mkPath (drv p) (root q) (tail q)
    else q
  else if negb (is_empty (drv q)) then
    if String.eqb (drv q) (drv p) || String.eqb (lower (drv q)) (lower (drv p))
    then mkPath (drv p) (root p) (tail p ++ tail q)%list
    else q
  else mkPath (drv p) (root p) (tail p ++ tail q)%list.

(** [p / s]. *)
Definition truediv (o : OsName) (p : PurePath) (s : string) : PurePath :=
  join_parsed_parts p (Path o s).

(** [p._make_child_relpath(name)], which [iterdir] uses for the entries
    of a directory. *)
Definition make_child_relpath (p : PurePath) (name : string) : PurePath :=
  mkPath (drv p) (root p) (tail p ++ [name])%list.

(** [str(p)]. *)
Definition str (o : OsName) (p : PurePath) : string :=
  let s := drv p ++ root p ++ join (sep_str o) (tail p) in
  if is_empty s then "." else s.

(** [p.name]: the final component, excluding the drive and root. *)
Definition name (p : PurePath) : string := last (tail p) "".

End Pathlib.
Import Pathlib.

(* ================================================================== *)
(** ** The surroundings of the program

    What the program asks of the operating system and of the parts of
    Python's library that are taken as given: each field answers one kind
    of call.  A call that can raise answers with a [result]. *)

(** [subprocess.CompletedProcess], with the fields that matter here. *)
Record CompletedProcess : Type := mkCompleted {
  returncode : Z;
  stdout : string          (* the captured bytes *)
}.

(** A match object of [re]: its groups, group 0 first; a group that took
    no part in the match is [None]. *)
Definition match_object : Type := list (option string).

Record World : Type := mkWorld {
  (** [os.name] *)
  os_name : OsName;
  (** [os.environ]: a variable that is not set has no value *)
  environ : string -> option string;
  (** what the system answers to [access(p, X_OK)]; see [os_access] *)
  access_X_OK : string -> bool;
  (** [os.listdir(p)], which [Path.iterdir] calls *)
  listdir : string -> result (list string);
  (** [Path.is_dir()] of the path printed as [p]: a missing entry is no
      directory; another error of [stat] ([PermissionError], say) is
      raised *)
  is_dir : string -> result bool;
  (** [subprocess.run(args, stdout=PIPE, shell=True)]: the shell is handed
      the command line; the exit status of the command is not checked *)
  run_shell : string -> result CompletedProcess;
  (** [bytes.decode()] *)
  decode : string -> result string;
  (** [re.search(pattern, text, flags)], the flag being [re.IGNORECASE] *)
  re_search : string -> string -> bool -> result (option match_object)
}.

(** [os.access(p, os.X_OK)].  Python refuses some paths before the system
    is asked, each with a [ValueError]: a path with a null character in
    it, and on Windows a path of more than 32767 characters.  Nothing else
    is raised: what the system refuses is answered [False].  (The
    file-system encoding is taken to be UTF-8, which encodes every
    [string].) *)
Definition os_access (w : World) (p : string) : result bool :=
  match os_name w with
  | posix =>
      if PyStr.contains_char Ascii.zero p
      then Raise (Exn ValueError "embedded null byte")
      else Ok (access_X_OK w p)
  | nt =>
      if Z.ltb 32767 (Z.of_nat (String.length p))
      then Raise (Exn ValueError "access: path too long for Windows")
      else if PyStr.contains_char Ascii.zero p
      then Raise (Exn ValueError "access: embedded null character in path")
      else Ok (access_X_OK w p)
  end.

(** The host calls a run has made, in order. *)
Inductive event : Type :=
| EvEnviron (key : string)
| EvAccess (path : string)
| EvListdir (path : string)
| EvIsDir (path : string)
| EvRun (args : string).

Definition is_fs_event (e : event) : bool :=
  match e with
  | EvAccess _ | EvListdir _ | EvIsDir _ => true
  | EvEnviron _ | EvRun _ => false
  end.

Definition trace : Type := list event.

(** ** The monad of the program: a log of host calls, and exceptions *)

Definition M (A : Type) : Type := trace -> result A * trace.

Definition ret {A} (a : A) : M A := fun t => (Ok a, t).
Definition raise {A} (e : exn) : M A := fun t => (Raise e, t).

Definition bind {A B} (m : M A) (k : A -> M B) : M B :=
  fun t => match m t with
           | (inl e, t') => (inl e, t')
           | (inr a, t') => k a t'
           end.

(** A pure computation that may raise, run inside [M]. *)
Definition lift {A} (r : result A) : M A := fun t => (r, t).

(** A host call: its answer, and one more entry in the log. *)
Definition call {A} (ev : event) (r : result A) : M A :=
  fun t => (r, (t ++ [ev])%list).

(** [try: body except Exception as e: handler(e)]. *)
Definition try_except {A} (body : M A) (handler : exn -> M A) : M A :=
  fun t => match body t with
           | (inl e, t') => handler e t'
           | (inr a, t') => (inr a, t')
           end.

Declare Scope monad_scope.
Delimit Scope monad_scope with monad.
Notation "x <- c ;; k" := (bind c (fun x => k))
  (at level 61, c at next level, right associativity) : monad_scope.
Local Open Scope monad_scope.

(** A loop that collects the results of [f] over [l], left to right, and
    stops at the first exception. *)
Fixpoint mapM {A B} (f : A -> M B) (l : list A) : M (list B) :=
  match l with
  | [] => ret []
  | x :: xs => y <- f x ;; ys <- mapM f xs ;; ret (y :: ys)
  end.

Fixpoint filterM {A} (f : A -> M bool) (l : list A) : M (list A) :=
  match l with
  | [] => ret []
  | x :: xs => b <- f x ;; ys <- filterM f xs ;; ret (if b then x :: ys else ys)
  end.

(* ================================================================== *)
(** ** Built-ins of Python that the program calls *)

Module Builtins.
Import PyStr.

Definition digit_value (c : ascii) : Z := Z.of_nat (ord c - 48).

(** The digits of an [int] literal: decimal digits, with single
    underscores allowed between two of them. *)
Fixpoint int_digits (acc : Z) (after_digit : bool) (s : string) : option Z :=
  match s with
  | "" => if after_digit then Some acc else None
  | String c r =>
      if isdigit c then int_digits (10 * acc + digit_value c) true r
      else if Ascii.eqb c "_" && after_digit then int_digits acc false r
      else None
  end.

(** [int(s)] for a string: surrounding whitespace is ignored, a sign is
    allowed; anything else raises [ValueError]. *)
Definition int (s : string) : result Z :=
  let body := strip s in
  let '(negative, ds) :=
    match body with
    | String c r =>
        if Ascii.eqb c "-" then (true, r)
        else if Ascii.eqb c "+" then (false, r)
        else (false, body)
    | "" => (false, body)
    end in
  match int_digits 0 false ds with
  | Some n => Ok (if negative then (- n)%Z else n)
  | None => Raise (Exn ValueError
              ("invalid literal for int() with base 10: '" ++ s ++ "'"))
  end.

(** [a > b] on tuples of integers: the first position where they differ
    decides; a proper extension is greater. *)
Fixpoint tuple_gt (a b : list Z) : bool :=
  match a, b with
  | x :: a', y :: b' => if Z.eqb x y then tuple_gt a' b' else Z.gtb x y
  | _ :: _, [] => true
  | [], _ => false
  end.

(** The loop of [max(iterable, key=...)]: the item kept is replaced only
    by one whose key is strictly greater, so the first of several
    greatest items is the one returned. *)
Fixpoint max_loop {A} (key : A -> result (list Z))
         (best : A) (kbest : list Z) (l : list A) : result A :=
  match l with
  | [] => Ok best
  | x :: xs =>
      rbind (key x) (fun k =>
        if tuple_gt k kbest then max_loop key x k xs
        else max_loop key best kbest xs)
  end.

Definition max_empty : exn := Exn ValueError "max() arg is an empty sequence".

Definition max {A} (l : list A) (key : A -> result (list Z)) : result A :=
  match l with
  | [] => Raise max_empty
  | x :: xs => rbind (key x) (fun k => max_loop key x k xs)
  end.

End Builtins.

(* ================================================================== *)
(** ** The module [Validators] *)

(** [osSelect = lambda linux, windows: linux if os.name != "nt" else windows] *)
Definition osSelect {A} (o : OsName) (linux windows : A) : A :=
  match o with nt => windows | posix => linux end.

(** [class ToolchainDefaults]: the default name of each component. *)
Module ToolchainDefaults.
Definition CXX_COMPILER (o : OsName) : string := osSelect o "amdclang++" "clang++.exe".
Definition C_COMPILER (o : OsName) : string := osSelect o "amdclang" "clang.exe".
Definition OFFLOAD_BUNDLER (o : OsName) : string :=
  osSelect o "clang-offload-bundler" "clang-offload-bundler.exe".
Definition ASSEMBLER (o : OsName) : string := osSelect o "amdclang++" "clang++.exe".
Definition HIP_CONFIG (o : OsName) : string := osSelect o "hipconfig" "hipconfig".
End ToolchainDefaults.

(** The pattern [^\d+\.\d+$] under [pattern.match]: one or more digits, a
    dot, one or more digits, and then the end of the name; as [$] does in
    Python, the end may also stand before a final newline. *)
Definition version_pattern_match (s : string) : bool :=
  let (major, r1) := PyStr.span PyStr.isdigit s in
  match r1 with
  | String "." r2 =>
      let (minor, r3) := PyStr.span PyStr.isdigit r2 in
      negb (PyStr.is_empty major) && negb (PyStr.is_empty minor)
      && (String.eqb r3 "" || String.eqb r3 (String PyStr.LF ""))
  | _ => false
  end.

(** The value of a string of decimal digits. *)
Definition decimal (s : string) : Z :=
  fold_left (fun acc c => (10 * acc + Builtins.digit_value c)%Z)
            (list_ascii_of_string s) 0%Z.

(** The module's globals [ROCM_BIN_PATH] and [ROCM_LLVM_BIN_PATH], set
    when the module is imported. *)
Record Globals : Type := mkGlobals {
  ROCM_BIN_PATH : PurePath;
  ROCM_LLVM_BIN_PATH : PurePath
}.

(** What [validateToolchain] returns: the one path for one argument, a
    tuple of paths otherwise. *)
Inductive resolved : Type :=
| One (path : string)
| Tuple (paths : list string).

(** A value of [getVersion]: a string, or [None] when the first group of
    the pattern took no part in the match. *)
Inductive pyval : Type :=
| PyString (s : string)
| PyNone.

Section Validators.

Variable w : World.

Let o : OsName := os_name w.

(** [lambda d: tuple(map(int, d.name.split(".")))] *)
Definition version_key (d : PurePath) : result (list Z) :=
  rmap Builtins.int (PyStr.split "." (name d)).

(** [_windowsLatestRocmBin], which exists where [os.name == "nt"]:
    [path] is a [WindowsPath].  The filter asks [is_dir] of the entries
    in the order of the listing, and an error of [is_dir] ends the scan. *)
Definition _windowsLatestRocmBin (path : string) : M PurePath :=
  let path := Path nt path in
  names <- call (EvListdir (str nt path)) (listdir w (str nt path)) ;;
  versions <- filterM (fun d =>
                b <- call (EvIsDir (str nt d)) (is_dir w (str nt d)) ;;
                ret (b && version_pattern_match (name d)))
              (map (make_child_relpath path) names) ;;
  latest <- lift (Builtins.max versions version_key) ;;
  ret (truediv nt latest "bin").

(** The statements run at import: the two globals are the POSIX
    directories, replaced on Windows by the result of the scan. *)
Definition import_module : M Globals :=
  let g := mkGlobals (Path o "/opt/rocm/bin") (Path o "/opt/rocm/lib/llvm/bin") in
  match o with
  | nt =>
      b <- _windowsLatestRocmBin "C:/Program Files/AMD/ROCm" ;;
      l <- _windowsLatestRocmBin "C:/Program Files/AMD/ROCm" ;;
      ret (mkGlobals b l)
  | posix => ret g
  end.

Definition _supportedComponent (component : string) (targets : list string) : bool :=
  existsb (fun t => String.eqb component t) targets
  || existsb (fun t => String.eqb (name (Path o component)) t) targets.

Definition supportedCCompiler (compiler : string) : bool :=
  _supportedComponent compiler [ToolchainDefaults.C_COMPILER o].

Definition supportedCxxCompiler (compiler : string) : bool :=
  _supportedComponent compiler [ToolchainDefaults.CXX_COMPILER o].

Definition supportedOffloadBundler (bundler : string) : bool :=
  _supportedComponent bundler [ToolchainDefaults.OFFLOAD_BUNDLER o].

Definition supportedHip (smi : string) : bool :=
  _supportedComponent smi [ToolchainDefaults.HIP_CONFIG o].

Definition _exeExists (file : PurePath) : M bool :=
  found <- call (EvAccess (str o file)) (os_access w (str o file)) ;;
  if found then ret true else ret false.

(** The loop of [_validateExecutable] over the search paths: the first
    directory under which the file is executable ends it. *)
Fixpoint probe (file : string) (searchPaths : list PurePath) : M (option string) :=
  match searchPaths with
  | [] => ret None
  | path :: rest =>
      let path := truediv o path file in
      found <- _exeExists path ;;
      if found then ret (Some (str o path)) else probe file rest
  end.

Definition unsupported_msg (file : string) : string :=
  file ++ " is not a supported toolchain component for OS: " ++ os_name_str o.

Definition not_found_msg (file : string) (searchPaths : list PurePath) : string :=
  "`" ++ file ++ "` either not found or not executable in any search path: "
      ++ PyStr.join ":" (map (str o) searchPaths).

Definition _validateExecutable (file : string) (searchPaths : list PurePath) : M string :=
  if negb (existsb (fun b : bool => b)
             [supportedCxxCompiler file; supportedCCompiler file;
              supportedOffloadBundler file; supportedHip file])
  then raise (Exn ValueError (unsupported_msg file))
  else
    direct <- _exeExists (Path o file) ;;
    if direct then ret file
    else
      r <- probe file searchPaths ;;
      match r with
      | Some p => ret p
      | None => raise (Exn FileNotFoundError (not_found_msg file searchPaths))
      end.

(** [os.pathsep] *)
Definition pathsep : ascii := osSelect o ":"%char ";"%char.

Definition no_components_msg : string :=
  "No toolchain components to validate, at least one argument is required".

(** [os.environ["PATH"]] *)
Definition environ_PATH : M string :=
  call (EvEnviron "PATH")
       (match environ w "PATH" with
        | Some v => Ok v
        | None => Raise (Exn KeyError "'PATH'")
        end).

Definition validateToolchain (g : Globals) (args : list string) : M resolved :=
  match args with
  | [] => raise (Exn ValueError no_components_msg)
  | _ =>
      PATH <- environ_PATH ;;
      let searchPaths :=
        ([ROCM_BIN_PATH g; ROCM_LLVM_BIN_PATH g]
           ++ map (Path o) (PyStr.split pathsep PATH))%list in
      match args with
      | [x] => p <- _validateExecutable x searchPaths ;; ret (One p)
      | _ => ps <- mapM (fun x => _validateExecutable x searchPaths) args ;;
             ret (Tuple ps)
      end
  end.

Definition default_versionFlag : string := "--version".
Definition default_regex : string := "version\s+([\d.]+)".

(** [f'"{executable}" "{versionFlag}"'] *)
Definition version_command (executable versionFlag : string) : string :=
  PyStr.dquote ++ executable ++ PyStr.dquote ++ " "
    ++ PyStr.dquote ++ versionFlag ++ PyStr.dquote.

Definition version_failure_msg (args : string) (e : exn) : string :=
  "Failed to get version when calling " ++ args ++ ": " ++ exn_str e.

(** [match.group(1)] *)
Definition group1 (m : match_object) : result pyval :=
  match nth_error m 1 with
  | Some (Some s) => Ok (PyString s)
  | Some None => Ok PyNone
  | None => Raise (Exn IndexError "no such group")
  end.

Definition getVersion (executable versionFlag regex : string) : M pyval :=
  let args := version_command executable versionFlag in
  try_except
    (completed <- call (EvRun args) (run_shell w args) ;;
     text <- lift (decode w (stdout completed)) ;;
     let output := PyStr.strip text in
     m <- lift (re_search w regex output true) ;;
     match m with
     | Some mo => lift (group1 mo)
     | None => ret (PyString "<unknown>")
     end)
    (fun e => raise (Exn RuntimeError (version_failure_msg args e))).

End Validators.

(* ================================================================== *)
(** ** A regular-expression engine for the patterns of this program

    [re.search] is a field of [World]; this module gives one answer for
    it, for a fragment of Python's syntax that holds the default pattern
    of [getVersion]: literals, [.], [^], [$], the escapes [\d \D \s \S]
    and escaped punctuation, character sets, the repetitions [* + ?] and
    their lazy forms, groups and alternation.  A match is the first that
    backtracking finds from the leftmost position where one exists, as in
    Python.  A pattern outside the fragment is answered with [ReError]. *)

Module MiniRe.
Import PyStr.

Inductive set_item : Type :=
| IChar (c : ascii)
| IRange (lo hi : ascii)
| IDigit (negated : bool)
| ISpace (negated : bool).

Inductive re : Type :=
| REmpty
| RChar (c : ascii)
| RAny
| RSet (negated : bool) (items : list set_item)
| RBol
| REol
| RCat (r1 r2 : re)
| RAlt (r1 r2 : re)
| RStar (greedy : bool) (r : re)
| RGroup (n : nat) (r : re).

(** *** Parsing *)

Definition is_alnum (c : ascii) : bool :=
  let n := ord c in
  in_range 48 57 n || in_range 65 90 n || in_range 97 122 n.

(** The item that an escape [\c] stands for. *)
Definition escape_item (c : ascii) : option set_item :=
  if Ascii.eqb c "d" then Some (IDigit false)
  else if Ascii.eqb c "D" then Some (IDigit true)
  else if Ascii.eqb c "s" then Some (ISpace false)
  else if Ascii.eqb c "S" then Some (ISpace true)
  else if Ascii.eqb c "n" then Some (IChar (chr 10))
  else if Ascii.eqb c "t" then Some (IChar (chr 9))
  else if Ascii.eqb c "r" then Some (IChar (chr 13))
  else if Ascii.eqb c "f" then Some (IChar (chr 12))
  else if Ascii.eqb c "v" then Some (IChar (chr 11))
  else if is_alnum c || Nat.leb 128 (ord c) then None
  else Some (IChar c).

Definition item_re (it : set_item) : re :=
  match it with
  | IChar c => RChar c
  | _ => RSet false [it]
  end.

(** The items of a set, after [[] and an optional [^]; [first] tells
    that no item was read yet, where []] is a literal. *)
Fixpoint parse_set (fuel : nat) (first : bool) (s : string)
  : option (list set_item * string) :=
  match fuel with
  | 0 => None
  | S fuel' =>
      match s with
      | "" => None
      | String c rest =>
          if Ascii.eqb c "]" && negb first then Some ([], rest)
          else
            let item :=
              if Ascii.eqb c "\" then
                match rest with
                | String e rest' =>
                    option_map (fun it => (it, rest')) (escape_item e)
                | "" => None
                end
              else Some (IChar c, rest) in
            match item with
            | None => None
            | Some (IChar lo, String "-" (String hi rest'')) =>
                if Ascii.eqb hi "]" then
                  option_map (fun '(l, r) => (IChar lo :: l, r))
                             (parse_set fuel' false (String "-" (String hi rest'')))
                else if Ascii.eqb hi "\" || Nat.ltb (ord hi) (ord lo) then None
                else option_map (fun '(l, r) => (IRange lo hi :: l, r))
                                (parse_set fuel' false rest'')
            | Some (it, rest') =>
                option_map (fun '(l, r) => (it :: l, r))
                           (parse_set fuel' false rest')
            end
      end
  end.

(** Whether the expression can match the empty string. *)
Fixpoint nullable (r : re) : bool :=
  match r with
  | REmpty | RBol | REol | RStar _ _ => true
  | RChar _ | RAny | RSet _ _ => false
  | RCat r1 r2 => nullable r1 && nullable r2
  | RAlt r1 r2 => nullable r1 || nullable r2
  | RGroup _ r' => nullable r'
  end.

(** A repetition mark after an atom.  The fragment has no [*] or [+]
    over an expression that can match the empty string. *)
Definition parse_repeat (r : re) (s : string) : option (re * string) :=
  let lazy rest :=
    match rest with String "?" rest' => (false, rest') | _ => (true, rest) end in
  match s with
  | String "*" rest =>
      let (g, rest') := lazy rest in
      if nullable r then None else Some (RStar g r, rest')
  | String "+" rest =>
      let (g, rest') := lazy rest in
      if nullable r then None else Some (RCat r (RStar g r), rest')
  | String "?" rest =>
      let (g, rest') := lazy rest in
      Some ((if g then RAlt r REmpty else RAlt REmpty r), rest')
  | _ => Some (r, s)
  end.

Definition starts_repeat (s : string) : bool :=
  match s with
  | String c _ => Ascii.eqb c "*" || Ascii.eqb c "+" || Ascii.eqb c "?"
                  || Ascii.eqb c "{"
  | "" => false
  end.

(** [n] is the number of groups opened so far. *)
Fixpoint parse_alt (fuel : nat) (s : string) (n : nat) : option (re * string * nat) :=
  match fuel with
  | 0 => None
  | S fuel' =>
      match parse_cat fuel' s n with
      | Some (r1, String "|" rest, n1) =>
          match parse_alt fuel' rest n1 with
          | Some (r2, rest', n2) => Some (RAlt r1 r2, rest', n2)
          | None => None
          end
      | other => other
      end
  end
with parse_cat (fuel : nat) (s : string) (n : nat) : option (re * string * nat) :=
  match fuel with
  | 0 => None
  | S fuel' =>
      match s with
      | "" => Some (REmpty, s, n)
      | String c _ =>
          if Ascii.eqb c "|" || Ascii.eqb c ")" then Some (REmpty, s, n)
          else
            match parse_atom fuel' s n with
            | Some (a, rest, n1) =>
                match parse_repeat a rest with
                | Some (q, rest1) =>
                    if starts_repeat rest1 then None
                    else
                      match parse_cat fuel' rest1 n1 with
                      | Some (REmpty, rest2, n2) => Some (q, rest2, n2)
                      | Some (r, rest2, n2) => Some (RCat q r, rest2, n2)
                      | None => None
                      end
                | None => None
                end
            | None => None
            end
      end
  end
with parse_atom (fuel : nat) (s : string) (n : nat) : option (re * string * nat) :=
  match fuel with
  | 0 => None
  | S fuel' =>
      match s with
      | "" => None
      | String c rest =>
          if Ascii.eqb c "(" then
            match rest with
            | String "?" (String ":" rest') =>
                match parse_alt fuel' rest' n with
                | Some (r, String ")" rest'', n1) => Some (r, rest'', n1)
                | _ => None
                end
            | String "?" _ => None
            | _ =>
                match parse_alt fuel' rest (S n) with
                | Some (r, String ")" rest'', n1) => Some (RGroup (S n) r, rest'', n1)
                | _ => None
                end
            end
          else if Ascii.eqb c "[" then
            let '(neg, body) :=
              match rest with
              | String "^" rest' => (true, rest')
              | _ => (false, rest)
              end in
            match parse_set (S (String.length body)) true body with
            | Some (items, rest') => Some (RSet neg items, rest', n)
            | None => None
            end
          else if Ascii.eqb c "\" then
            match rest with
            | String e rest' =>
                option_map (fun it => (item_re it, rest', n)) (escape_item e)
            | "" => None
            end
          else if Ascii.eqb c "." then Some (RAny, rest, n)
          else if Ascii.eqb c "^" then Some (RBol, rest, n)
          else if Ascii.eqb c "$" then Some (REol, rest, n)
          else if starts_repeat s || Ascii.eqb c "}" then None
          else Some (RChar c, rest, n)
      end
  end.

(** The expression of a pattern and the number of its groups. *)
Definition parse (pattern : string) : option (re * nat) :=
  match parse_alt (4 * S (String.length pattern)) pattern 0 with
  | Some (r, "", n) => Some (r, n)
  | _ => None
  end.

(** *** Matching *)

Definition item_matches (it : set_item) (c : ascii) : bool :=
  match it with
  | IChar d => Ascii.eqb c d
  | IRange lo hi => in_range (ord lo) (ord hi) (ord c)
  | IDigit neg => xorb neg (isdigit c)
  | ISpace neg => xorb neg (isspace c)
  end.

Definition set_matches (ignorecase negated : bool) (items : list set_item)
           (c : ascii) : bool :=
  xorb negated
       (existsb (fun it =>
                   item_matches it c
                   || (ignorecase
                       && (item_matches it (lower_char c)
                           || item_matches it (upper_char c))))
                items).

Definition char_matches (ignorecase : bool) (a c : ascii) : bool :=
  if ignorecase then Ascii.eqb (lower_char a) (lower_char c) else Ascii.eqb a c.

(** The groups closed so far: number, start and end, the latest first. *)
Definition captures : Type := list (nat * (nat * nat)).

(** What is left to match: given the position, the text after it and the
    captures, the end of the whole match if there is one. *)
Definition continuation : Type :=
  nat -> string -> captures -> option (nat * captures).

Definition or_else {A} (a b : option A) : option A :=
  match a with Some _ => a | None => b end.

Fixpoint matches (ic : bool) (r : re) (i : nat) (s : string) (c : captures)
         (k : continuation) {struct r} : option (nat * captures) :=
  match r with
  | REmpty => k i s c
  | RChar a =>
      match s with
      | String b s' => if char_matches ic a b then k (S i) s' c else None
      | "" => None
      end
  | RAny =>
      match s with
      | String b s' => if Ascii.eqb b LF then None else k (S i) s' c
      | "" => None
      end
  | RSet neg items =>
      match s with
      | String b s' => if set_matches ic neg items b then k (S i) s' c else None
      | "" => None
      end
  | RBol => if Nat.eqb i 0 then k i s c else None
  | REol => if is_empty s || String.eqb s (String LF "") then k i s c else None
  | RCat r1 r2 => matches ic r1 i s c (fun i' s' c' => matches ic r2 i' s' c' k)
  | RAlt r1 r2 => or_else (matches ic r1 i s c k) (matches ic r2 i s c k)
  | RStar greedy r' =>
      (fix loop (fuel : nat) (i : nat) (s : string) (c : captures) :=
         match fuel with
         | 0 => k i s c
         | S fuel' =>
             let again :=
               matches ic r' i s c
                       (fun i' s' c' => if Nat.eqb i' i then None
                                        else loop fuel' i' s' c') in
             if greedy then or_else again (k i s c)
             else or_else (k i s c) again
         end) (S (String.length s)) i s c
  | RGroup n r' =>
      matches ic r' i s c (fun i' s' c' => k i' s' ((n, (i, i')) :: c'))
  end.

(** The leftmost position from which the expression matches. *)
Fixpoint search_from (ic : bool) (r : re) (i : nat) (s : string)
  : option (nat * nat * captures) :=
  match matches ic r i s [] (fun j _ c => Some (j, c)) with
  | Some (j, c) => Some (i, j, c)
  | None =>
      match s with
      | String _ s' => search_from ic r (S i) s'
      | "" => None
      end
  end.

Fixpoint lookup (n : nat) (c : captures) : option (nat * nat) :=
  match c with
  | [] => None
  | (m, span) :: c' => if Nat.eqb m n then Some span else lookup n c'
  end.

Definition slice (text : string) (span : nat * nat) : string :=
  let (a, b) := span in take (b - a) (drop a text).

Definition groups (text : string) (ngroups : nat)
           (found : nat * nat * captures) : match_object :=
  let '(i, j, c) := found in
  Some (slice text (i, j))
    :: map (fun n => option_map (slice text) (lookup n c)) (seq 1 ngroups).

Definition search (pattern text : string) (ignorecase : bool)
  : result (option match_object) :=
  match parse pattern with
  | None => Raise (Exn ReError ("pattern outside the modelled fragment: " ++ pattern))
  | Some (r, ngroups) =>
      Ok (option_map (groups text ngroups) (search_from ignorecase r 0 text))
  end.

End MiniRe.

(* ================================================================== *)
(** ** Roles

    The four components the resolver accepts, the default name of each
    and the predicate the module exposes for it. *)

Inductive Role : Type := CCompiler | CxxCompiler | OffloadBundler | DeviceInfoTool.

Definition all_roles : list Role :=
  [CCompiler; CxxCompiler; OffloadBundler; DeviceInfoTool].

Definition canonical (o : OsName) (r : Role) : string :=
  match r with
  | CCompiler => ToolchainDefaults.C_COMPILER o
  | CxxCompiler => ToolchainDefaults.CXX_COMPILER o
  | OffloadBundler => ToolchainDefaults.OFFLOAD_BUNDLER o
  | DeviceInfoTool => ToolchainDefaults.HIP_CONFIG o
  end.

Definition supported (w : World) (r : Role) (name : string) : bool :=
  match r with
  | CCompiler => supportedCCompiler w name
  | CxxCompiler => supportedCxxCompiler w name
  | OffloadBundler => supportedOffloadBundler w name
  | DeviceInfoTool => supportedHip w name
  end.

(** The test at the head of [_validateExecutable]: some role accepts. *)
Definition supported_any (w : World) (file : string) : bool :=
  existsb (fun b : bool => b)
    [supportedCxxCompiler w file; supportedCCompiler w file;
     supportedOffloadBundler w file; supportedHip w file].

(** The search path [validateToolchain] builds from the value of [PATH]. *)
Definition search_paths (w : World) (g : Globals) (PATH : string) : list PurePath :=
  ([ROCM_BIN_PATH g; ROCM_LLVM_BIN_PATH g]
     ++ map (Path (os_name w)) (PyStr.split (pathsep w) PATH))%list.

(** [is_dir] answered [True]. *)
Definition is_dir_true (w : World) (p : string) : bool :=
  match is_dir w p with inr b => b | inl _ => false end.

(** The entries of [root] that the filter of [_windowsLatestRocmBin]
    keeps: the directories whose name has the form of a version. *)
Definition version_dirs (w : World) (root : PurePath) (names : list string)
  : list PurePath :=
  filter (fun d => is_dir_true w (str nt d) && version_pattern_match (name d))
         (map (make_child_relpath root) names).

(** The filter over the entries of the root: what it gives and what it
    asks of the host.  It asks [is_dir] of each entry in turn and stops at
    the first error. *)
Fixpoint scan_entries (w : World) (P : PurePath -> bool) (l : list PurePath)
  : result (list PurePath) * list event :=
  match l with
  | [] => (Ok [], [])
  | d :: rest =>
      match is_dir w (str nt d) with
      | inl e => (inl e, [EvIsDir (str nt d)])
      | inr b =>
          (rbind (fst (scan_entries w P rest))
                 (fun ys => Ok (if b && P d then d :: ys else ys)),
           EvIsDir (str nt d) :: snd (scan_entries w P rest))
      end
  end.

(** The number that a string of decimal digits writes, read off the
    digits apart from the conversion that the program uses
    ([Builtins.int]), to say what the scan selects; [None] for the empty
    string and for a string that holds anything else. *)
Definition digit_number (c : ascii) : option Z :=
  if Ascii.eqb c "0" then Some 0%Z else if Ascii.eqb c "1" then Some 1%Z
  else if Ascii.eqb c "2" then Some 2%Z else if Ascii.eqb c "3" then Some 3%Z
  else if Ascii.eqb c "4" then Some 4%Z else if Ascii.eqb c "5" then Some 5%Z
  else if Ascii.eqb c "6" then Some 6%Z else if Ascii.eqb c "7" then Some 7%Z
  else if Ascii.eqb c "8" then Some 8%Z else if Ascii.eqb c "9" then Some 9%Z
  else None.

Fixpoint digits_number (acc : Z) (s : string) : option Z :=
  match s with
  | "" => Some acc
  | String c r =>
      match digit_number c with
      | Some v => digits_number (10 * acc + v) r
      | None => None
      end
  end.

Definition decimal_number (s : string) : option Z :=
  match s with
  | "" => None
  | _ => digits_number 0 s
  end.

(** The path probed for [file] under the directory [d], as [os.access]
    receives it. *)
Definition candidate (w : World) (d : PurePath) (file : string) : string :=
  str (os_name w) (truediv (os_name w) d file).

(** Whether [file] names an executable as it stands: what [os.access]
    says of the name parsed as a path and printed. *)
Definition directly_executable (w : World) (file : string) : result bool :=
  os_access w (str (os_name w) (Path (os_name w) file)).

(* ================================================================== *)
(** ** Worlds for the examples *)

Module Fixture.

(** Two hexadecimal digits, as Python prints a byte in an error. *)
Definition hex_digit (n : nat) : ascii :=
  if Nat.ltb n 10 then PyStr.chr (48 + n) else PyStr.chr (87 + n).

Definition hex2 (n : nat) : string :=
  String (hex_digit (n / 16)) (String (hex_digit (n mod 16)) "").

Definition utf8_error (byte pos : nat) (why : string) : exn :=
  Exn UnicodeDecodeError
      ("'utf-8' codec can't decode byte 0x" ++ hex2 byte ++ " in position "
         ++ NilZero.string_of_uint (Nat.to_uint pos) ++ ": " ++ why).

(** [bytes.decode()] for output whose text lies within U+0000..U+00FF,
    which is what a [string] holds: a byte below 128 stands for itself,
    the two-byte forms that begin with C2 and C3 for U+0080..U+00FF, and a
    byte that starts no character, or is not continued, is reported as
    Python reports it.  Longer forms encode text that a [string] cannot
    hold; the hosts below print none. *)
Fixpoint decode_utf8_from (pos : nat) (b : string) : result string :=
  match b with
  | "" => Ok ""
  | String c rest =>
      let n := PyStr.ord c in
      if Nat.ltb n 128 then
        rbind (decode_utf8_from (S pos) rest) (fun s => Ok (String c s))
      else if Nat.ltb n 194 || Nat.ltb 244 n then
        Raise (utf8_error n pos "invalid start byte")
      else if Nat.ltb n 196 then
        match rest with
        | "" => Raise (utf8_error n pos "unexpected end of data")
        | String c2 rest' =>
            if PyStr.in_range 128 191 (PyStr.ord c2) then
              rbind (decode_utf8_from (S (S pos)) rest')
                    (fun s => Ok (String (PyStr.chr ((n - 192) * 64 + (PyStr.ord c2 - 128))) s))
            else Raise (utf8_error n pos "invalid continuation byte")
        end
      else Raise (Exn UnicodeDecodeError "text beyond U+00FF")
  end.

Definition decode_utf8 (b : string) : result string := decode_utf8_from 0 b.

(** What [/bin/sh -c] does with a command it cannot find: it says so on
    standard error and exits with status 127; nothing is raised. *)
Definition command_not_found : CompletedProcess := mkCompleted 127 "".

(** A host given by its system, the value of [PATH], the paths that are
    executable, the directories with their entries, and the commands
    that print something. *)
Definition host (o : OsName) (PATH : option string) (executables : list string)
           (dirs : list (string * list string))
           (commands : list (string * string)) : World :=
  {| os_name := o;
     environ := fun k => if String.eqb k "PATH" then PATH else None;
     access_X_OK := fun p => existsb (String.eqb p) executables;
     listdir := fun p =>
       match find (fun e => String.eqb (fst e) p) dirs with
       | Some e => Ok (snd e)
       | None => Raise (Exn FileNotFoundError ("No such file or directory: '" ++ p ++ "'"))
       end;
     is_dir := fun p => Ok (existsb (fun e => String.eqb (fst e) p) dirs);
     run_shell := fun args =>
       match find (fun e => String.eqb (fst e) args) commands with
       | Some e => Ok (mkCompleted 0 (snd e))
       | None => Ok command_not_found
       end;
     decode := decode_utf8;
     re_search := MiniRe.search |}.

Definition posix_globals : Globals :=
  mkGlobals (Path posix "/opt/rocm/bin") (Path posix "/opt/rocm/lib/llvm/bin").

(** A Linux host where [amdclang++] lives in the LLVM directory of ROCm;
    it prints its version, [hipconfig] prints a bare number, and the
    [amdclang++] of [/usr/bin] prints a byte that is not UTF-8. *)
Definition linux : World :=
  host posix (Some "/usr/local/bin:/usr/bin")
       ["/opt/rocm/lib/llvm/bin/amdclang++"; "/usr/bin/amdclang++"; "/usr/bin/hipconfig"]
       []
       [(version_command "/opt/rocm/lib/llvm/bin/amdclang++" "--version",
         "clang version 17.0.2 (...)" ++ String PyStr.LF "");
        (version_command "/usr/bin/hipconfig" "--version",
         "6.1.40091-a8dbc0c19" ++ String PyStr.LF "");
        (version_command "/usr/bin/amdclang++" "--version",
         String (PyStr.chr 255) "")].

(** The same host without a shell to run commands with. *)
Definition linux_without_shell : World :=
  {| os_name := os_name linux;
     environ := environ linux;
     access_X_OK := access_X_OK linux;
     listdir := listdir linux;
     is_dir := is_dir linux;
     run_shell := fun _ =>
       Raise (Exn FileNotFoundError "[Errno 2] No such file or directory: '/bin/sh'");
     decode := decode linux;
     re_search := re_search linux |}.

(** A Linux host where [PATH] is not set and [amdclang++] is an
    executable of the working directory. *)
Definition linux_no_PATH : World :=
  host posix None ["amdclang++"] [] [].

Definition rocm_root : string := "C:\Program Files\AMD\ROCm".

(** A Windows host with three versions of ROCm installed. *)
Definition windows : World :=
  host nt (Some "C:\Windows;C:\Tools") []
       [(rocm_root, ["9.5"; "10.0"; "9.8"; "README.txt"]);
        (rocm_root ++ "\9.5", []); (rocm_root ++ "\10.0", []);
        (rocm_root ++ "\9.8", [])]
       [].

(** The globals that importing the module on [windows] sets. *)
Definition windows_globals : Globals :=
  mkGlobals (Path nt "C:/Program Files/AMD/ROCm/10.0/bin")
            (Path nt "C:/Program Files/AMD/ROCm/10.0/bin").

(** A Windows host whose ROCm directory holds no version. *)
Definition windows_no_version : World :=
  host nt (Some "C:\Windows") []
       [(rocm_root, ["docs"]); (rocm_root ++ "\docs", [])] [].

(** A Windows host where one entry of the ROCm directory cannot be
    examined: [stat] is refused, and [Path.is_dir] lets that error out. *)
Definition access_denied (p : string) : exn :=
  Exn PermissionError ("[WinError 5] Access is denied: '" ++ p ++ "'").

Definition windows_entry_denied : World :=
  let h := host nt (Some "C:\Windows") []
                [(rocm_root, ["9.5"; "locked"]); (rocm_root ++ "\9.5", ["bin"])] [] in
  {| os_name := os_name h;
     environ := environ h;
     access_X_OK := access_X_OK h;
     listdir := listdir h;
     is_dir := fun p =>
       if String.eqb p (rocm_root ++ "\locked")
       then Raise (access_denied "C:\\Program Files\\AMD\\ROCm\\locked")
       else is_dir h p;
     run_shell := run_shell h;
     decode := decode h;
     re_search := re_search h |}.

End Fixture.

(* ================================================================== *)
(** * Properties *)

(** ** Strings *)

Lemma append_assoc (a b c : string) : (a ++ b) ++ c = a ++ (b ++ c).
Proof. induction a as [|x a IH]; cbn; [reflexivity | now rewrite IH]. Qed.

Lemma append_nil_r (a : string) : a ++ "" = a.
Proof. induction a as [|x a IH]; cbn; [reflexivity | now rewrite IH]. Qed.

(** ** The monad *)

Lemma bind_ok {A B} (m : M A) (k : A -> M B) (t t' : trace) (a : A) :
  m t = (Ok a, t') -> bind m k t = k a t'.
Proof. intros H. unfold bind. rewrite H. reflexivity. Qed.

Lemma bind_raise {A B} (m : M A) (k : A -> M B) (t t' : trace) (e : exn) :
  m t = (Raise e, t') -> bind m k t = (Raise e, t').
Proof. intros H. unfold bind. rewrite H. reflexivity. Qed.

Lemma exeExists_eq (w : World) (p : PurePath) (t : trace) :
  _exeExists w p t
  = (os_access w (str (os_name w) p),
     (t ++ [EvAccess (str (os_name w) p)])%list).
Proof.
  unfold _exeExists, bind, call, ret. cbv zeta.
  destruct (os_access w (str (os_name w) p)) as [e|[]]; reflexivity.
Qed.

Lemma exeExists_ok (w : World) (p : PurePath) (b : bool) (t : trace) :
  os_access w (str (os_name w) p) = Ok b ->
  _exeExists w p t = (Ok b, (t ++ [EvAccess (str (os_name w) p)])%list).
Proof. intros H. rewrite exeExists_eq, H. reflexivity. Qed.

Lemma exeExists_raise (w : World) (p : PurePath) (e : exn) (t : trace) :
  os_access w (str (os_name w) p) = Raise e ->
  _exeExists w p t = (Raise e, (t ++ [EvAccess (str (os_name w) p)])%list).
Proof. intros H. rewrite exeExists_eq, H. reflexivity. Qed.

(** ** The classifier *)

Lemma supportedComponent_one (w : World) (component target : string) :
  _supportedComponent w component [target] = true
  <-> component = target \/ name (Path (os_name w) component) = target.
Proof.
  unfold _supportedComponent. cbn [existsb].
  rewrite !orb_false_r, orb_true_iff, !String.eqb_eq. reflexivity.
Qed.

Lemma supported_any_false (w : World) (file : string) :
  supported_any w file = false <-> forall r, supported w r file = false.
Proof.
  unfold supported_any. cbn [existsb]. rewrite orb_false_r. split.
  - intros H r.
    destruct (supportedCxxCompiler w file) eqn:E1; [discriminate|].
    destruct (supportedCCompiler w file) eqn:E2; [discriminate|].
    destruct (supportedOffloadBundler w file) eqn:E3; [discriminate|].
    destruct (supportedHip w file) eqn:E4; [discriminate|].
    destruct r; assumption.
  - intros H.
    pose proof (H CxxCompiler) as H1. pose proof (H CCompiler) as H2.
    pose proof (H OffloadBundler) as H3. pose proof (H DeviceInfoTool) as H4.
    cbn [supported] in *. rewrite H1, H2, H3, H4. reflexivity.
Qed.

Lemma supported_any_true (w : World) (file : string) :
  supported_any w file = true <-> exists r, supported w r file = true.
Proof.
  split.
  - intros H. destruct (supported w CxxCompiler file) eqn:E1; [now exists CxxCompiler|].
    destruct (supported w CCompiler file) eqn:E2; [now exists CCompiler|].
    destruct (supported w OffloadBundler file) eqn:E3; [now exists OffloadBundler|].
    destruct (supported w DeviceInfoTool file) eqn:E4; [now exists DeviceInfoTool|].
    exfalso. assert (F : supported_any w file = false).
    { apply supported_any_false. intros []; assumption. }
    congruence.
  - intros [r Hr]. destruct (supported_any w file) eqn:E; [reflexivity|].
    rewrite supported_any_false in E. rewrite E in Hr. discriminate.
Qed.

(** C2.  For each of the four roles, a name is accepted exactly when it is
    the default name of the role or when its final path component,
    [Path(name).name], is that default name.  The comparison is the
    equality of strings: the default name itself and the default name
    under [/usr/bin/] are accepted, while ["clang++-17"], a default name
    with a version suffix and a default name written in upper case are
    accepted for no role, on either system. *)
Theorem supported_iff_canonical_or_basename :
  forall (w : World) (r : Role),
    (forall name : string,
        supported w r name = true
        <-> name = canonical (os_name w) r
            \/ Pathlib.name (Path (os_name w) name) = canonical (os_name w) r)
    /\ supported w r (canonical (os_name w) r) = true
    /\ supported w r ("/usr/bin/" ++ canonical (os_name w) r) = true
    /\ supported w r "clang++-17" = false
    /\ supported w r (canonical (os_name w) r ++ "-17") = false
    /\ supported w r (PyStr.upper (canonical (os_name w) r)) = false.
Proof.
  intros w r. split.
  - intros name. destruct r; cbn [supported canonical];
      unfold supportedCCompiler, supportedCxxCompiler,
             supportedOffloadBundler, supportedHip;
      apply supportedComponent_one.
  - destruct w as [o ? ? ? ? ? ? ?]; destruct o, r; repeat split.
Qed.

(** On POSIX the final component of a name is the last of its pieces
    between slashes that is neither empty nor a single dot. *)
Lemma posix_keep_lstrip (s : string) :
  filter keep_component (PyStr.split "/" (PyStr.lstrip_char "/" s))
  = filter keep_component (PyStr.split "/" s).
Proof.
  induction s as [|c s IH]; [reflexivity|].
  cbn [PyStr.lstrip_char PyStr.split].
  destruct (Ascii.eqb c "/") eqn:E; [exact IH|].
  cbn [PyStr.split]. rewrite E. reflexivity.
Qed.

Lemma posix_name_last_piece (s : string) :
  Pathlib.name (Path posix s)
  = last (filter keep_component (PyStr.split "/" s)) "".
Proof.
  unfold Path. destruct s as [|c s]; [reflexivity|].
  cbn [PyStr.is_empty splitroot]. unfold posix_splitroot.
  destruct (PyStr.char_is "/" (PyStr.first (String c s))).
  - destruct (Nat.eqb _ 2); unfold Pathlib.name; cbn [tail sep];
      rewrite posix_keep_lstrip; reflexivity.
  - reflexivity.
Qed.

Lemma split_nonempty (sep : ascii) (s : string) : PyStr.split sep s <> [].
Proof.
  destruct s as [|c s]; cbn; [discriminate|].
  destruct (Ascii.eqb c sep); [discriminate|].
  destruct (PyStr.split sep s); discriminate.
Qed.

Lemma split_app (sep : ascii) (a b : string) :
  PyStr.split sep (a ++ String sep b)
  = (PyStr.split sep a ++ PyStr.split sep b)%list.
Proof.
  induction a as [|x a IH]; cbn.
  - rewrite Ascii.eqb_refl. reflexivity.
  - destruct (Ascii.eqb x sep); rewrite IH; [reflexivity|].
    pose proof (split_nonempty sep a) as Hne.
    destruct (PyStr.split sep a); [contradiction|reflexivity].
Qed.

(** So on POSIX a default name is accepted behind any directory prefix. *)
Lemma supported_behind_any_prefix_posix (w : World) (r : Role) (prefix : string) :
  os_name w = posix ->
  supported w r (prefix ++ "/" ++ canonical posix r) = true.
Proof.
  intros Hos.
  assert (Hname : Pathlib.name (Path posix (prefix ++ "/" ++ canonical posix r))
                  = canonical posix r).
  { rewrite posix_name_last_piece.
    change (prefix ++ "/" ++ canonical posix r)
      with (prefix ++ String "/" (canonical posix r)).
    rewrite split_app, filter_app.
    replace (filter keep_component (PyStr.split "/" (canonical posix r)))
      with [canonical posix r] by (destruct r; reflexivity).
    apply last_last. }
  destruct r; cbn [supported];
    unfold supportedCCompiler, supportedCxxCompiler,
           supportedOffloadBundler, supportedHip;
    apply supportedComponent_one; right; rewrite Hos; exact Hname.
Qed.

(** ** The defaults *)

(** C9, amended.  On Windows the default names of the C compiler, the C++
    compiler and the offload bundler end in [.exe], and the compiler
    drivers are [clang.exe] and [clang++.exe] where POSIX has [amdclang]
    and [amdclang++]; the device-info tool is [hipconfig] on both systems. *)
Theorem windows_defaults_exe_except_hipconfig :
  PyStr.endswith ".exe" (canonical nt CCompiler) = true
  /\ PyStr.endswith ".exe" (canonical nt CxxCompiler) = true
  /\ PyStr.endswith ".exe" (canonical nt OffloadBundler) = true
  /\ canonical nt CCompiler = "clang.exe"
  /\ canonical posix CCompiler = "amdclang"
  /\ canonical nt CxxCompiler = "clang++.exe"
  /\ canonical posix CxxCompiler = "amdclang++"
  /\ canonical nt DeviceInfoTool = "hipconfig"
  /\ canonical posix DeviceInfoTool = "hipconfig".
Proof. repeat split. Qed.

(** C9 as stated fails at the device-info tool: its default name on
    Windows is [hipconfig], which has no extension at all. *)
Lemma windows_hipconfig_without_extension :
  In DeviceInfoTool all_roles
  /\ canonical nt DeviceInfoTool = "hipconfig"
  /\ PyStr.endswith ".exe" (canonical nt DeviceInfoTool) = false
  /\ PyStr.contains_char "." (canonical nt DeviceInfoTool) = false.
Proof. repeat split. cbn. tauto. Qed.

(** ** The resolver *)

Lemma environ_PATH_set (w : World) (PATH : string) (t : trace) :
  environ w "PATH" = Some PATH ->
  environ_PATH w t = (Ok PATH, (t ++ [EvEnviron "PATH"])%list).
Proof. intros H. unfold environ_PATH, call. rewrite H. reflexivity. Qed.

Lemma environ_PATH_unset (w : World) (t : trace) :
  environ w "PATH" = None ->
  environ_PATH w t = (Raise (Exn KeyError "'PATH'"), (t ++ [EvEnviron "PATH"])%list).
Proof. intros H. unfold environ_PATH, call. rewrite H. reflexivity. Qed.

(** With one argument, [validateToolchain] reads [PATH] and hands the
    name to [_validateExecutable]. *)
Lemma validateToolchain_one (w : World) (g : Globals) (x PATH : string) (t : trace) :
  environ w "PATH" = Some PATH ->
  validateToolchain w g [x] t
  = bind (_validateExecutable w x (search_paths w g PATH))
         (fun p => ret (One p)) (t ++ [EvEnviron "PATH"])%list.
Proof.
  intros H. unfold validateToolchain.
  rewrite (bind_ok _ _ _ _ _ (environ_PATH_set w PATH t H)). reflexivity.
Qed.

(** With more arguments, the names are handed over one after the other,
    all with the same search path. *)
Lemma validateToolchain_many (w : World) (g : Globals) (x y : string)
      (more : list string) (PATH : string) (t : trace) :
  environ w "PATH" = Some PATH ->
  validateToolchain w g (x :: y :: more) t
  = bind (mapM (fun n => _validateExecutable w n (search_paths w g PATH))
               (x :: y :: more))
         (fun ps => ret (Tuple ps)) (t ++ [EvEnviron "PATH"])%list.
Proof.
  intros H. unfold validateToolchain.
  rewrite (bind_ok _ _ _ _ _ (environ_PATH_set w PATH t H)). reflexivity.
Qed.

Lemma validateExecutable_unsupported (w : World) (file : string)
      (sp : list PurePath) (t : trace) :
  supported_any w file = false ->
  _validateExecutable w file sp t
  = (Raise (Exn ValueError (unsupported_msg w file)), t).
Proof.
  intros H. unfold _validateExecutable. unfold supported_any in H.
  cbv zeta. rewrite H. reflexivity.
Qed.

Lemma validateExecutable_supported (w : World) (file : string)
      (sp : list PurePath) (t : trace) :
  supported_any w file = true ->
  _validateExecutable w file sp t
  = bind (_exeExists w (Path (os_name w) file))
      (fun direct =>
         if direct then ret file
         else bind (probe w file sp)
                (fun r => match r with
                          | Some p => ret p
                          | None => raise (Exn FileNotFoundError (not_found_msg w file sp))
                          end)) t.
Proof.
  intros H. unfold _validateExecutable. unfold supported_any in H.
  cbv zeta. rewrite H. reflexivity.
Qed.

(** The loop stops at the first directory whose candidate is executable,
    having probed the directories before it in order. *)
Lemma probe_first_match (w : World) (file : string)
      (before : list PurePath) (d : PurePath) (after : list PurePath) :
  (forall d', In d' before -> os_access w (candidate w d' file) = Ok false) ->
  os_access w (candidate w d file) = Ok true ->
  forall t,
    probe w file (before ++ d :: after)%list t
    = (Ok (Some (candidate w d file)),
       (t ++ map (fun d' => EvAccess (candidate w d' file)) (before ++ [d]))%list).
Proof.
  intros Hbefore Hd. induction before as [|b before IH]; intros t.
  - cbn [app map]. unfold probe. cbv zeta.
    rewrite (bind_ok _ _ _ _ _ (exeExists_ok w _ _ t Hd)). reflexivity.
  - cbn [app map]. unfold probe. cbv zeta.
    rewrite (bind_ok _ _ _ _ _ (exeExists_ok w _ _ t (Hbefore b (or_introl eq_refl)))).
    fold (probe w). rewrite IH.
    + rewrite <- app_assoc. reflexivity.
    + intros d' Hin. apply Hbefore. right. exact Hin.
Qed.

Lemma probe_no_match (w : World) (file : string) (sp : list PurePath) :
  (forall d, In d sp -> os_access w (candidate w d file) = Ok false) ->
  forall t,
    probe w file sp t
    = (Ok None, (t ++ map (fun d => EvAccess (candidate w d file)) sp)%list).
Proof.
  intros Hsp. induction sp as [|b sp IH]; intros t.
  - cbn. rewrite app_nil_r. reflexivity.
  - cbn [map]. unfold probe. cbv zeta.
    rewrite (bind_ok _ _ _ _ _ (exeExists_ok w _ _ t (Hsp b (or_introl eq_refl)))).
    fold (probe w). rewrite IH.
    + rewrite <- app_assoc. reflexivity.
    + intros d Hin. apply Hsp. right. exact Hin.
Qed.

(** A supported name that is executable as it stands is returned as it
    was given, after the one probe of it. *)
Lemma validateExecutable_direct (w : World) (file : string)
      (sp : list PurePath) (t : trace) :
  supported_any w file = true ->
  directly_executable w file = Ok true ->
  _validateExecutable w file sp t
  = (Ok file, (t ++ [EvAccess (str (os_name w) (Path (os_name w) file))])%list).
Proof.
  intros Hs Hd. rewrite validateExecutable_supported by exact Hs.
  rewrite (bind_ok _ _ _ _ _ (exeExists_ok w _ _ t Hd)). reflexivity.
Qed.

(** Otherwise the first directory of the search path that holds an
    executable of that name gives the result. *)
Lemma validateExecutable_first_match (w : World) (file : string)
      (before : list PurePath) (d : PurePath) (after : list PurePath) (t : trace) :
  supported_any w file = true ->
  directly_executable w file = Ok false ->
  (forall d', In d' before -> os_access w (candidate w d' file) = Ok false) ->
  os_access w (candidate w d file) = Ok true ->
  _validateExecutable w file (before ++ d :: after)%list t
  = (Ok (candidate w d file),
     (t ++ EvAccess (str (os_name w) (Path (os_name w) file))
        :: map (fun d' => EvAccess (candidate w d' file)) (before ++ [d]))%list).
Proof.
  intros Hs Hd Hbefore Hhit. rewrite validateExecutable_supported by exact Hs.
  rewrite (bind_ok _ _ _ _ _ (exeExists_ok w _ _ t Hd)).
  rewrite (bind_ok _ _ _ _ _ (probe_first_match w file before d after Hbefore Hhit _)).
  unfold ret. rewrite <- app_assoc. reflexivity.
Qed.

(** When no directory does, the error names the file and the whole search
    path, its directories printed in order with a colon between them. *)
Lemma validateExecutable_not_found (w : World) (file : string)
      (sp : list PurePath) (t : trace) :
  supported_any w file = true ->
  directly_executable w file = Ok false ->
  (forall d, In d sp -> os_access w (candidate w d file) = Ok false) ->
  _validateExecutable w file sp t
  = (Raise (Exn FileNotFoundError
              ("`" ++ file ++ "` either not found or not executable in any search path: "
                   ++ PyStr.join ":" (map (str (os_name w)) sp))),
     (t ++ EvAccess (str (os_name w) (Path (os_name w) file))
        :: map (fun d => EvAccess (candidate w d file)) sp)%list).
Proof.
  intros Hs Hd Hnone. rewrite validateExecutable_supported by exact Hs.
  rewrite (bind_ok _ _ _ _ _ (exeExists_ok w _ _ t Hd)).
  rewrite (bind_ok _ _ _ _ _ (probe_no_match w file sp Hnone _)).
  unfold raise, not_found_msg. rewrite <- app_assoc. reflexivity.
Qed.

(** C8.  With no argument [validateToolchain] raises a [ValueError] of its
    own, whatever the host: nothing is read from the environment or the
    filesystem and no name is classified (the log is left as it was).  The
    error is none of the [FileNotFoundError]s of a failed search. *)
Theorem validateToolchain_no_arguments :
  forall (w : World) (g : Globals) (t : trace),
    validateToolchain w g [] t
    = (Raise (Exn ValueError
         "No toolchain components to validate, at least one argument is required"),
       t)
    /\ (forall file sp,
           Exn ValueError no_components_msg
           <> Exn FileNotFoundError (not_found_msg w file sp)).
Proof.
  intros w g t. split.
  - reflexivity.
  - intros file sp. discriminate.
Qed.

(** C3.  A name that no role accepts makes [_validateExecutable] raise
    the [ValueError] that carries the name and [os.name], and the log of
    host calls is unchanged: the classification comes before every probe.
    Through [validateToolchain] the only host call made is the reading of
    [PATH], which is no access to the filesystem. *)
Theorem unsupported_component_rejected_before_probing :
  forall (w : World) (file : string),
    (forall r, supported w r file = false) ->
    (forall sp t,
        _validateExecutable w file sp t
        = (Raise (Exn ValueError
             (file ++ " is not a supported toolchain component for OS: "
                   ++ os_name_str (os_name w))),
           t))
    /\ (forall g PATH t,
           environ w "PATH" = Some PATH ->
           validateToolchain w g [file] t
           = (Raise (Exn ValueError
                (file ++ " is not a supported toolchain component for OS: "
                      ++ os_name_str (os_name w))),
              (t ++ [EvEnviron "PATH"])%list)
           /\ filter is_fs_event (t ++ [EvEnviron "PATH"])%list
              = filter is_fs_event t).
Proof.
  intros w file Hno. apply supported_any_false in Hno. split.
  - intros sp t. apply validateExecutable_unsupported. exact Hno.
  - intros g PATH t HP. split.
    + rewrite (validateToolchain_one w g file PATH t HP).
      apply bind_raise. apply validateExecutable_unsupported. exact Hno.
    + rewrite filter_app. cbn. apply app_nil_r.
Qed.

Lemma unsupported_component_rejected_witness :
  (forall r, supported Fixture.linux r "not-a-toolchain-binary" = false)
  /\ validateToolchain Fixture.linux Fixture.posix_globals ["not-a-toolchain-binary"] []
     = (Raise (Exn ValueError
          "not-a-toolchain-binary is not a supported toolchain component for OS: posix"),
        [EvEnviron "PATH"]).
Proof.
  assert (H : forall r, supported Fixture.linux r "not-a-toolchain-binary" = false).
  { intros r; destruct r; reflexivity. }
  split.
  - exact H.
  - exact (proj1 (proj2 (unsupported_component_rejected_before_probing
                           Fixture.linux "not-a-toolchain-binary" H)
                        Fixture.posix_globals "/usr/local/bin:/usr/bin" [] eq_refl)).
Defined.

(** C10, amended.  The empty string is accepted for no role, so
    [_validateExecutable] rejects it as an unsupported component before
    any probe, and on a host where [PATH] is set so does
    [validateToolchain] called with the empty string alone, once it has
    read [PATH]; this error is neither the one for a call without
    arguments nor one of a failed search, and on no host does that call
    end in either of those two. *)
Theorem empty_name_is_unsupported :
  forall w : World,
    (forall r, supported w r "" = false)
    /\ (forall sp t,
           _validateExecutable w "" sp t
           = (Raise (Exn ValueError
                (" is not a supported toolchain component for OS: "
                   ++ os_name_str (os_name w))), t))
    /\ (forall g PATH t,
           environ w "PATH" = Some PATH ->
           validateToolchain w g [""] t
           = (Raise (Exn ValueError
                (" is not a supported toolchain component for OS: "
                   ++ os_name_str (os_name w))),
              (t ++ [EvEnviron "PATH"])%list))
    /\ Exn ValueError (unsupported_msg w "") <> Exn ValueError no_components_msg
    /\ (forall file sp,
           Exn ValueError (unsupported_msg w "")
           <> Exn FileNotFoundError (not_found_msg w file sp))
    /\ (forall g t,
           exists e, fst (validateToolchain w g [""] t) = Raise e
                     /\ e <> Exn ValueError no_components_msg
                     /\ exn_cls e <> FileNotFoundError).
Proof.
  intros w.
  assert (H : forall r, supported w r "" = false).
  { destruct w as [o ? ? ? ? ? ? ?]. intros r. destruct o, r; reflexivity. }
  split; [exact H|]. apply supported_any_false in H.
  assert (Hmsg : Exn ValueError (unsupported_msg w "")
                 <> Exn ValueError no_components_msg).
  { unfold unsupported_msg, no_components_msg. cbn. discriminate. }
  split; [|split; [|split; [|split]]].
  - intros sp t. apply (validateExecutable_unsupported w "" sp t H).
  - intros g PATH t HP. rewrite (validateToolchain_one w g "" PATH t HP).
    apply bind_raise. apply (validateExecutable_unsupported w "" _ _ H).
  - exact Hmsg.
  - intros file sp. discriminate.
  - intros g t. destruct (environ w "PATH") as [PATH|] eqn:HP.
    + exists (Exn ValueError (unsupported_msg w "")).
      rewrite (validateToolchain_one w g "" PATH t HP).
      rewrite (bind_raise _ _ _ _ _ (validateExecutable_unsupported w "" _ _ H)).
      repeat split; [exact Hmsg | discriminate].
    + exists (Exn KeyError "'PATH'"). unfold validateToolchain.
      rewrite (bind_raise _ _ _ _ _ (environ_PATH_unset w t HP)).
      repeat split; discriminate.
Qed.

Lemma empty_name_is_unsupported_witness :
  environ Fixture.linux "PATH" = Some "/usr/local/bin:/usr/bin"
  /\ validateToolchain Fixture.linux Fixture.posix_globals [""] []
     = (Raise (Exn ValueError " is not a supported toolchain component for OS: posix"),
        [EvEnviron "PATH"]).
Proof.
  split.
  - reflexivity.
  - exact (proj1 (proj2 (proj2 (empty_name_is_unsupported Fixture.linux)))
                 Fixture.posix_globals "/usr/local/bin:/usr/bin" [] eq_refl).
Defined.

(** C10 as stated fails where [PATH] is not set: [validateToolchain]
    reads [os.environ["PATH"]] before it looks at the name, so the call
    with the empty string alone ends in [KeyError], not in the error for
    an unsupported component, although no role accepts the name. *)
Lemma validateToolchain_empty_name_PATH_unset_KeyError :
  environ Fixture.linux_no_PATH "PATH" = None
  /\ supported_any Fixture.linux_no_PATH "" = false
  /\ validateToolchain Fixture.linux_no_PATH Fixture.posix_globals [""] []
     = (Raise (Exn KeyError "'PATH'"), [EvEnviron "PATH"])
  /\ fst (validateToolchain Fixture.linux_no_PATH Fixture.posix_globals [""] [])
     <> Raise (Exn ValueError (unsupported_msg Fixture.linux_no_PATH "")).
Proof. repeat split. discriminate. Qed.

(** C1, amended.  On a host where [PATH] is set, for a name that some role
    accepts: if the name is executable as it stands, it is returned
    unchanged; otherwise the directories probed are [ROCM_BIN_PATH],
    [ROCM_LLVM_BIN_PATH] and then the entries of [PATH] in their order,
    and the result is [directory / name] for the first of them under which
    the file is executable, none after it being probed. *)
Theorem validateToolchain_first_match_wins :
  forall (w : World) (g : Globals) (name PATH : string) (t : trace),
    environ w "PATH" = Some PATH ->
    (exists r, supported w r name = true) ->
    (directly_executable w name = Ok true ->
       validateToolchain w g [name] t
       = (Ok (One name),
          (t ++ [EvEnviron "PATH";
                 EvAccess (str (os_name w) (Path (os_name w) name))])%list))
    /\ (directly_executable w name = Ok false ->
        forall before d after,
          ([ROCM_BIN_PATH g; ROCM_LLVM_BIN_PATH g]
             ++ map (Path (os_name w)) (PyStr.split (pathsep w) PATH))%list
          = (before ++ d :: after)%list ->
          (forall d', In d' before ->
                      os_access w (str (os_name w) (truediv (os_name w) d' name)) = Ok false) ->
          os_access w (str (os_name w) (truediv (os_name w) d name)) = Ok true ->
          validateToolchain w g [name] t
          = (Ok (One (str (os_name w) (truediv (os_name w) d name))),
             (t ++ EvEnviron "PATH"
                :: EvAccess (str (os_name w) (Path (os_name w) name))
                :: map (fun d' => EvAccess (str (os_name w) (truediv (os_name w) d' name)))
                       (before ++ [d]))%list)).
Proof.
  intros w g name PATH t HP Hs. apply supported_any_true in Hs. split.
  - intros Hd. rewrite (validateToolchain_one w g name PATH t HP).
    rewrite (bind_ok _ _ _ _ _ (validateExecutable_direct w name _ _ Hs Hd)).
    unfold ret. rewrite <- app_assoc. reflexivity.
  - intros Hd before d after Hsp Hbefore Hhit.
    rewrite (validateToolchain_one w g name PATH t HP).
    unfold search_paths. rewrite Hsp.
    rewrite (bind_ok _ _ _ _ _
               (validateExecutable_first_match w name before d after _ Hs Hd Hbefore Hhit)).
    unfold ret, candidate. rewrite <- app_assoc. reflexivity.
Qed.

Lemma validateToolchain_first_match_wins_witness :
  validateToolchain Fixture.linux Fixture.posix_globals ["/usr/bin/amdclang++"] []
  = (Ok (One "/usr/bin/amdclang++"),
     [EvEnviron "PATH"; EvAccess "/usr/bin/amdclang++"])
  /\ validateToolchain Fixture.linux Fixture.posix_globals ["amdclang++"] []
     = (Ok (One "/opt/rocm/lib/llvm/bin/amdclang++"),
        [EvEnviron "PATH"; EvAccess "amdclang++";
         EvAccess "/opt/rocm/bin/amdclang++";
         EvAccess "/opt/rocm/lib/llvm/bin/amdclang++"]).
Proof.
  split.
  - exact (proj1 (validateToolchain_first_match_wins
                    Fixture.linux Fixture.posix_globals "/usr/bin/amdclang++"
                    "/usr/local/bin:/usr/bin" [] eq_refl
                    (ex_intro _ CxxCompiler eq_refl))
                 eq_refl).
  - refine (proj2 (validateToolchain_first_match_wins
                     Fixture.linux Fixture.posix_globals "amdclang++"
                     "/usr/local/bin:/usr/bin" [] eq_refl
                     (ex_intro _ CxxCompiler eq_refl))
                  eq_refl
                  [Path posix "/opt/rocm/bin"]
                  (Path posix "/opt/rocm/lib/llvm/bin")
                  [Path posix "/usr/local/bin"; Path posix "/usr/bin"]
                  eq_refl _ eq_refl).
    intros d' [Hd'|[]]. rewrite <- Hd'. reflexivity.
Defined.

(** C1 as stated fails where [PATH] is not set: [os.environ["PATH"]]
    raises [KeyError] before any name is looked at, also for a supported
    name that is executable as it stands. *)
Lemma validateToolchain_PATH_unset_KeyError :
  environ Fixture.linux_no_PATH "PATH" = None
  /\ supported Fixture.linux_no_PATH CxxCompiler "amdclang++" = true
  /\ directly_executable Fixture.linux_no_PATH "amdclang++" = Ok true
  /\ validateToolchain Fixture.linux_no_PATH Fixture.posix_globals ["amdclang++"] []
     = (Raise (Exn KeyError "'PATH'"), [EvEnviron "PATH"]).
Proof. repeat split. Qed.

(** For a supported name that
    is not executable as it stands and that no directory of the search
    path holds, [validateToolchain] raises [FileNotFoundError]; the
    message names the file and lists every directory searched, in the
    order of the search, with a colon between them. *)
Lemma validateToolchain_not_found_lists_search_path :
  forall (w : World) (g : Globals) (name PATH : string) (t : trace),
    environ w "PATH" = Some PATH ->
    (exists r, supported w r name = true) ->
    directly_executable w name = Ok false ->
    (forall d, In d (search_paths w g PATH) ->
               os_access w (candidate w d name) = Ok false) ->
    fst (validateToolchain w g [name] t)
    = Raise (Exn FileNotFoundError
        ("`" ++ name ++ "` either not found or not executable in any search path: "
             ++ PyStr.join ":" (map (str (os_name w)) (search_paths w g PATH)))).
Proof.
  intros w g name PATH t HP Hs Hd Hnone. apply supported_any_true in Hs.
  rewrite (validateToolchain_one w g name PATH t HP).
  rewrite (bind_raise _ _ _ _ _
             (validateExecutable_not_found w name _ _ Hs Hd Hnone)).
  reflexivity.
Qed.

(** C4 at a Windows host.  [PATH] is split at [os.pathsep], which is the
    semicolon there, but the message of the [FileNotFoundError] joins the
    directories searched with a colon. *)
Theorem not_found_message_joined_by_colon_on_windows :
  fst (import_module Fixture.windows []) = Ok Fixture.windows_globals
  /\ environ Fixture.windows "PATH" = Some "C:\Windows;C:\Tools"
  /\ pathsep Fixture.windows = ";"%char
  /\ map (str nt) (search_paths Fixture.windows Fixture.windows_globals "C:\Windows;C:\Tools")
     = ["C:\Program Files\AMD\ROCm\10.0\bin"; "C:\Program Files\AMD\ROCm\10.0\bin";
        "C:\Windows"; "C:\Tools"]
  /\ fst (validateToolchain Fixture.windows Fixture.windows_globals ["clang.exe"] [])
     = Raise (Exn FileNotFoundError
         "`clang.exe` either not found or not executable in any search path: C:\Program Files\AMD\ROCm\10.0\bin:C:\Program Files\AMD\ROCm\10.0\bin:C:\Windows:C:\Tools").
Proof. repeat split. Qed.

(** ** The version extractor *)

(** [getVersion], one host call and one library call after the other. *)
Lemma getVersion_eq (w : World) (executable versionFlag regex : string) (t : trace) :
  getVersion w executable versionFlag regex t
  = let args := version_command executable versionFlag in
    let wrapped (e : exn) : result pyval :=
      Raise (Exn RuntimeError (version_failure_msg args e)) in
    (match run_shell w args with
     | inl e => wrapped e
     | inr completed =>
         match decode w (stdout completed) with
         | inl e => wrapped e
         | inr text =>
             match re_search w regex (PyStr.strip text) true with
             | inl e => wrapped e
             | inr None => Ok (PyString "<unknown>")
             | inr (Some mo) =>
                 match group1 mo with
                 | inl e => wrapped e
                 | inr v => Ok v
                 end
             end
         end
     end,
     (t ++ [EvRun args])%list).
Proof.
  unfold getVersion, try_except, bind, call, lift, ret, raise. cbv zeta.
  destruct (run_shell w _) as [e|completed]; [reflexivity|].
  destruct (decode w _) as [e|text]; [reflexivity|].
  destruct (re_search w _ _ _) as [e|[mo|]]; [reflexivity| |reflexivity].
  destruct (group1 mo); reflexivity.
Qed.

(** One step through [getVersion_eq]: the answer of a call is put in
    its place and the branch on it is taken. *)
Ltac answer H := unfold Ok, Raise in H; rewrite H; cbv beta iota.



(** C7, amended.  When the call of the shell raises, or the decoding of
    the output does, [getVersion] raises one [RuntimeError] whose message
    holds the quoted executable and flag and the text of the cause; no
    exception of another class leaves [getVersion].  The exit status of
    the command is not looked at: for a command that printed nothing,
    whatever its status, the result is what the pattern gives on the
    empty string - ["<unknown>"] when it finds no match there. *)
Theorem getVersion_wraps_failures :
  forall (w : World) (executable versionFlag regex : string) (t : trace),
    (forall cause,
        run_shell w (version_command executable versionFlag) = Raise cause ->
        getVersion w executable versionFlag regex t
        = (Raise (Exn RuntimeError
             ("Failed to get version when calling "
                ++ PyStr.dquote ++ executable ++ PyStr.dquote ++ " "
                ++ PyStr.dquote ++ versionFlag ++ PyStr.dquote
                ++ ": " ++ exn_str cause)),
           (t ++ [EvRun (version_command executable versionFlag)])%list))
    /\ (forall completed cause,
           run_shell w (version_command executable versionFlag) = Ok completed ->
           decode w (stdout completed) = Raise cause ->
           getVersion w executable versionFlag regex t
           = (Raise (Exn RuntimeError
                ("Failed to get version when calling "
                   ++ PyStr.dquote ++ executable ++ PyStr.dquote ++ " "
                   ++ PyStr.dquote ++ versionFlag ++ PyStr.dquote
                   ++ ": " ++ exn_str cause)),
              (t ++ [EvRun (version_command executable versionFlag)])%list))
    /\ (forall e,
           fst (getVersion w executable versionFlag regex t) = Raise e ->
           exists cause,
             e = Exn RuntimeError
                   (version_failure_msg (version_command executable versionFlag) cause))
    /\ (forall status,
           run_shell w (version_command executable versionFlag)
           = Ok (mkCompleted status "") ->
           decode w "" = Ok "" ->
           fst (getVersion w executable versionFlag regex t)
           = match re_search w regex "" true with
             | inl cause =>
                 Raise (Exn RuntimeError
                   (version_failure_msg (version_command executable versionFlag) cause))
             | inr None => Ok (PyString "<unknown>")
             | inr (Some m) =>
                 match group1 m with
                 | inl cause =>
                     Raise (Exn RuntimeError
                       (version_failure_msg (version_command executable versionFlag) cause))
                 | inr v => Ok v
                 end
             end)
    /\ (forall status,
           run_shell w (version_command executable versionFlag)
           = Ok (mkCompleted status "") ->
           decode w "" = Ok "" ->
           re_search w regex "" true = Ok None ->
           getVersion w executable versionFlag regex t
           = (Ok (PyString "<unknown>"),
              (t ++ [EvRun (version_command executable versionFlag)])%list)).
Proof.
  intros w executable versionFlag regex t. split; [|split; [|split; [|split]]].
  - intros cause Hrun. rewrite getVersion_eq. cbv zeta. answer Hrun.
    unfold version_failure_msg, version_command.
    rewrite !append_assoc. reflexivity.
  - intros completed cause Hrun Hdec. rewrite getVersion_eq. cbv zeta.
    answer Hrun. answer Hdec. unfold version_failure_msg, version_command.
    rewrite !append_assoc. reflexivity.
  - intros e. rewrite getVersion_eq. cbv zeta. cbn [fst].
    destruct (run_shell w _) as [e1|completed].
    { intros H. injection H as <-. now exists e1. }
    destruct (decode w _) as [e2|text].
    { intros H. injection H as <-. now exists e2. }
    destruct (re_search w _ _ _) as [e3|[mo|]].
    { intros H. injection H as <-. now exists e3. }
    { destruct (group1 mo) as [e4|v].
      - intros H. injection H as <-. now exists e4.
      - discriminate. }
    discriminate.
  - intros status Hrun Hdec. rewrite getVersion_eq. cbv zeta. cbn [fst].
    answer Hrun. cbn [stdout]. answer Hdec. change (PyStr.strip "") with "".
    reflexivity.
  - intros status Hrun Hdec Hre. rewrite getVersion_eq. cbv zeta.
    answer Hrun. cbn [stdout]. answer Hdec. change (PyStr.strip "") with "".
    answer Hre. reflexivity.
Qed.

Lemma getVersion_wraps_failures_witness :
  getVersion Fixture.linux_without_shell "/usr/bin/hipconfig" "--version" default_regex []
  = (Raise (Exn RuntimeError
       ("Failed to get version when calling "
          ++ PyStr.dquote ++ "/usr/bin/hipconfig" ++ PyStr.dquote ++ " "
          ++ PyStr.dquote ++ "--version" ++ PyStr.dquote
          ++ ": [Errno 2] No such file or directory: '/bin/sh'")),
     [EvRun (version_command "/usr/bin/hipconfig" "--version")])
  /\ getVersion Fixture.linux "/usr/bin/amdclang++" "--version" default_regex []
     = (Raise (Exn RuntimeError
          ("Failed to get version when calling "
             ++ PyStr.dquote ++ "/usr/bin/amdclang++" ++ PyStr.dquote ++ " "
             ++ PyStr.dquote ++ "--version" ++ PyStr.dquote
             ++ ": 'utf-8' codec can't decode byte 0xff in position 0: invalid start byte")),
        [EvRun (version_command "/usr/bin/amdclang++" "--version")])
  /\ getVersion Fixture.linux "hipconfig-6" "--version" default_regex []
     = (Ok (PyString "<unknown>"), [EvRun (version_command "hipconfig-6" "--version")]).
Proof.
  split; [|split].
  - exact (proj1 (getVersion_wraps_failures
                    Fixture.linux_without_shell "/usr/bin/hipconfig" "--version"
                    default_regex [])
                 (Exn FileNotFoundError "[Errno 2] No such file or directory: '/bin/sh'")
                 eq_refl).
  - exact (proj1 (proj2 (getVersion_wraps_failures
                    Fixture.linux "/usr/bin/amdclang++" "--version" default_regex []))
                 (mkCompleted 0 (String (PyStr.chr 255) ""))
                 (Exn UnicodeDecodeError
                    "'utf-8' codec can't decode byte 0xff in position 0: invalid start byte")
                 eq_refl eq_refl).
  - exact (proj2 (proj2 (proj2 (proj2 (getVersion_wraps_failures
                    Fixture.linux "hipconfig-6" "--version" default_regex []))))
                 127%Z eq_refl eq_refl eq_refl).
Defined.

(** C7 as stated fails for a missing executable.  The command goes
    through the shell, which reports a command it cannot find by the exit
    status 127 and prints nothing on standard output; [run] raises
    nothing, and [getVersion] returns ["<unknown>"]. *)
Lemma getVersion_missing_executable_returns_unknown :
  run_shell Fixture.linux (version_command "no-such-tool" "--version")
  = Ok (mkCompleted 127 "")
  /\ getVersion Fixture.linux "no-such-tool" "--version" default_regex []
     = (Ok (PyString "<unknown>"), [EvRun (version_command "no-such-tool" "--version")]).
Proof. split; reflexivity. Qed.

(** ** The scan for the latest ROCm directory *)

Module ScanFacts.
Import PyStr.

Lemma span_spec (p : ascii -> bool) (s a b : string) :
  span p s = (a, b) -> s = a ++ b /\ forallb p a = true.
Proof.
  revert a b. induction s as [|c s IH]; cbn; intros a b H.
  - injection H as <- <-. split; reflexivity.
  - destruct (p c) eqn:Ec.
    + destruct (span p s) as [x y]. injection H as <- <-.
      destruct (IH x y eq_refl) as [-> Hx]. split; [reflexivity|].
      cbn. rewrite Ec, Hx. reflexivity.
    + injection H as <- <-. split; reflexivity.
Qed.

Ltac range_cases :=
  repeat match goal with
         | |- context [Nat.leb ?a ?b] => destruct (Nat.leb_spec a b)
         | |- context [Nat.eqb ?a ?b] => destruct (Nat.eqb_spec a b)
         end;
  try reflexivity; try lia.

Lemma isdigit_not_space (c : ascii) : isdigit c = true -> isspace c = false.
Proof.
  unfold isdigit, isspace, in_range. generalize (ord c) as n. intros n H.
  apply andb_true_iff in H as [H1 H2].
  apply Nat.leb_le in H1. apply Nat.leb_le in H2. range_cases.
Qed.

Lemma isdigit_not (c d : ascii) :
  isdigit d = false -> isdigit c = true -> Ascii.eqb c d = false.
Proof.
  intros Hd Hc. destruct (Ascii.eqb_spec c d) as [->|]; [congruence|reflexivity].
Qed.

Lemma digits_without (d : ascii) (s : string) :
  isdigit d = false -> forallb isdigit s = true -> contains_char d s = false.
Proof.
  intros Hd. induction s as [|c s IH]; cbn; [reflexivity|].
  intros H. apply andb_true_iff in H as [Hc Hs].
  rewrite (isdigit_not c d Hd Hc), IH by exact Hs. reflexivity.
Qed.

Lemma split_no_sep (sep : ascii) (s : string) :
  contains_char sep s = false -> split sep s = [s].
Proof.
  induction s as [|c s IH]; cbn; [reflexivity|].
  intros H. apply orb_false_iff in H as [Hc Hs].
  rewrite Hc, (IH Hs). reflexivity.
Qed.

Lemma split_app_sep (sep : ascii) (a r : string) :
  contains_char sep a = false ->
  split sep (a ++ String sep r) = a :: split sep r.
Proof.
  induction a as [|c a IH]; cbn.
  - intros _. rewrite Ascii.eqb_refl. reflexivity.
  - intros H. apply orb_false_iff in H as [Hc Ha].
    rewrite Hc, (IH Ha). reflexivity.
Qed.

Lemma contains_char_app (c : ascii) (a b : string) :
  contains_char c (a ++ b) = contains_char c a || contains_char c b.
Proof.
  induction a as [|x a IH]; cbn; [reflexivity|].
  rewrite IH, orb_assoc. reflexivity.
Qed.

Lemma rstrip_digits (d tl : string) :
  forallb isdigit d = true -> rstrip tl = "" -> rstrip (d ++ tl) = d.
Proof.
  intros Hd Htl. induction d as [|c d IH]; cbn; [exact Htl|].
  cbn in Hd. apply andb_true_iff in Hd as [Hc Hd].
  rewrite (IH Hd), (isdigit_not_space c Hc), andb_false_r. reflexivity.
Qed.

Lemma lstrip_digits (d tl : string) :
  forallb isdigit d = true -> d <> "" -> lstrip (d ++ tl) = d ++ tl.
Proof.
  intros Hd Hne. destruct d as [|c d]; [contradiction|].
  cbn in Hd. apply andb_true_iff in Hd as [Hc Hd].
  cbn. rewrite (isdigit_not_space c Hc). reflexivity.
Qed.

Lemma strip_digits (d tl : string) :
  forallb isdigit d = true -> d <> "" -> rstrip tl = "" ->
  strip (d ++ tl) = d.
Proof.
  intros Hd Hne Htl. unfold strip.
  rewrite lstrip_digits, rstrip_digits by assumption. reflexivity.
Qed.

Lemma int_digits_digits (d : string) :
  forall (acc : Z) (b : bool),
    forallb isdigit d = true -> (d <> "" \/ b = true) ->
    Builtins.int_digits acc b d
    = Some (fold_left (fun acc c => (10 * acc + Builtins.digit_value c)%Z)
                      (list_ascii_of_string d) acc).
Proof.
  induction d as [|c d IH]; intros acc b Hd Hb.
  - destruct Hb as [Hb|Hb]; [contradiction|]. cbn. rewrite Hb. reflexivity.
  - cbn in Hd. apply andb_true_iff in Hd as [Hc Hd].
    cbn [Builtins.int_digits list_ascii_of_string fold_left]. rewrite Hc.
    apply IH; [exact Hd | right; reflexivity].
Qed.

(** [int] of a string of digits, a final newline or not, is its value. *)
Lemma int_of_digits (d tl : string) :
  forallb isdigit d = true -> d <> "" -> rstrip tl = "" ->
  Builtins.int (d ++ tl) = Ok (decimal d).
Proof.
  intros Hd Hne Htl. unfold Builtins.int.
  rewrite (strip_digits d tl Hd Hne Htl).
  destruct d as [|c d]; [contradiction|].
  pose proof Hd as Hd'. cbn in Hd'. apply andb_true_iff in Hd' as [Hc _].
  rewrite (isdigit_not c "-" eq_refl Hc), (isdigit_not c "+" eq_refl Hc).
  rewrite (int_digits_digits (String c d) 0 false Hd)
    by (left; discriminate).
  reflexivity.
Qed.

(** A name of the form of a version splits at its dot into two strings
    of digits, and those are what [int] reads. *)
Lemma version_pattern_shape (s : string) :
  version_pattern_match s = true ->
  exists ma mi tl,
    s = ma ++ "." ++ mi ++ tl
    /\ forallb isdigit ma = true /\ ma <> ""
    /\ forallb isdigit mi = true /\ mi <> ""
    /\ (tl = "" \/ tl = String LF "").
Proof.
  unfold version_pattern_match.
  destruct (span isdigit s) as [ma r1] eqn:E1.
  destruct r1 as [|c r2]; [discriminate|].
  destruct (Ascii.eqb_spec c ".") as [->|Hc].
  2:{ destruct c as [[] [] [] [] [] [] [] []]; try discriminate.
      exfalso. apply Hc. reflexivity. }
  destruct (span isdigit r2) as [mi r3] eqn:E2.
  intros H. apply andb_true_iff in H as [H H3].
  apply andb_true_iff in H as [Hma Hmi].
  apply span_spec in E1 as [-> Dma]. apply span_spec in E2 as [-> Dmi].
  exists ma, mi, r3. repeat split; try assumption.
  - intros ->. discriminate.
  - intros ->. discriminate.
  - apply orb_true_iff in H3 as [H3|H3]; apply String.eqb_eq in H3; auto.
Qed.

End ScanFacts.

(** The order of two versions: the major number first, then the minor. *)
Definition version_le (x y : Z * Z) : Prop :=
  (fst x < fst y)%Z \/ (fst x = fst y /\ (snd x <= snd y)%Z).

Lemma tuple_gt_pair (a b c d : Z) :
  Builtins.tuple_gt [a; b] [c; d] = false <-> version_le (a, b) (c, d).
Proof.
  unfold version_le. cbn.
  destruct (Z.eqb_spec a c) as [->|Hac].
  - destruct (Z.eqb_spec b d) as [->|Hbd].
    + split; [intros _; right; split; [reflexivity|lia] | reflexivity].
    + rewrite Z.gtb_ltb, Z.ltb_ge. lia.
  - rewrite Z.gtb_ltb, Z.ltb_ge. lia.
Qed.

Lemma digit_number_value (c : ascii) :
  PyStr.isdigit c = true -> digit_number c = Some (Builtins.digit_value c).
Proof.
  destruct c as [[] [] [] [] [] [] [] []]; intros H;
    try discriminate H; reflexivity.
Qed.

Lemma digits_number_decimal (s : string) :
  forall acc,
    PyStr.forallb PyStr.isdigit s = true ->
    digits_number acc s
    = Some (fold_left (fun acc c => (10 * acc + Builtins.digit_value c)%Z)
                      (list_ascii_of_string s) acc).
Proof.
  induction s as [|c s IH]; intros acc H; [reflexivity|].
  cbn in H. apply andb_true_iff in H as [Hc Hs].
  cbn [digits_number list_ascii_of_string fold_left].
  rewrite (digit_number_value c Hc). apply IH. exact Hs.
Qed.

Lemma decimal_number_decimal (s : string) :
  PyStr.forallb PyStr.isdigit s = true -> s <> "" ->
  decimal_number s = Some (decimal s).
Proof.
  intros H Hne. destruct s as [|c s]; [contradiction|].
  unfold decimal_number, decimal. apply digits_number_decimal. exact H.
Qed.

(** The key of a kept entry: its name is two strings of digits with a dot
    between them, and the key is the pair of the numbers they write. *)
Lemma version_key_numbers (d : PurePath) :
  version_pattern_match (name d) = true ->
  exists ma mi tl major minor,
    name d = ma ++ "." ++ mi ++ tl
    /\ (tl = "" \/ tl = String PyStr.LF "")
    /\ decimal_number ma = Some major
    /\ decimal_number mi = Some minor
    /\ version_key d = Ok [major; minor].
Proof.
  intros H. apply ScanFacts.version_pattern_shape in H.
  destruct H as (ma & mi & tl & Hname & Dma & Nma & Dmi & Nmi & Htl).
  exists ma, mi, tl, (decimal ma), (decimal mi).
  split; [exact Hname|]. split; [exact Htl|].
  split; [apply decimal_number_decimal; assumption|].
  split; [apply decimal_number_decimal; assumption|].
  unfold version_key. rewrite Hname.
  change (ma ++ "." ++ mi ++ tl) with (ma ++ String "." (mi ++ tl)).
  rewrite ScanFacts.split_app_sep
    by (apply ScanFacts.digits_without; [reflexivity|exact Dma]).
  rewrite ScanFacts.split_no_sep.
  2:{ rewrite ScanFacts.contains_char_app.
      rewrite (ScanFacts.digits_without "." mi eq_refl Dmi).
      destruct Htl as [->| ->]; reflexivity. }
  cbn [rmap rbind].
  rewrite <- (append_nil_r ma) at 1.
  rewrite (ScanFacts.int_of_digits ma "" Dma Nma eq_refl).
  rewrite (ScanFacts.int_of_digits mi tl Dmi Nmi)
    by (destruct Htl as [->| ->]; reflexivity).
  reflexivity.
Qed.

Lemma version_key_pair (d : PurePath) :
  version_pattern_match (name d) = true ->
  exists major minor, version_key d = Ok [major; minor].
Proof.
  intros H. destruct (version_key_numbers d H) as (_ & _ & _ & a & b & _ & _ & _ & _ & Hk).
  exists a, b. exact Hk.
Qed.

(** The loop of [max], over items whose keys are pairs: it ends with an
    item of the list that no item exceeds. *)
Lemma max_loop_greatest {A} (key : A -> result (list Z)) (l : list A) :
  (forall x, In x l -> exists a b, key x = Ok [a; b]) ->
  forall (best : A) (ka kb : Z),
    exists m ma mb,
      Builtins.max_loop key best [ka; kb] l = Ok m
      /\ (m = best /\ (ma, mb) = (ka, kb) \/ In m l /\ key m = Ok [ma; mb])
      /\ version_le (ka, kb) (ma, mb)
      /\ (forall x, In x l ->
                    exists a b, key x = Ok [a; b] /\ version_le (a, b) (ma, mb)).
Proof.
  induction l as [|x xs IH]; intros Hkeys best ka kb.
  - exists best, ka, kb. cbn. repeat split.
    + left. split; reflexivity.
    + right. cbn. split; [reflexivity|lia].
    + intros x [].
  - destruct (Hkeys x (or_introl eq_refl)) as (a & b & Hx).
    assert (Hxs : forall y, In y xs -> exists a b, key y = Ok [a; b]).
    { intros y Hy. apply Hkeys. right. exact Hy. }
    cbn [Builtins.max_loop]. rewrite Hx. cbn [rbind Ok].
    destruct (Builtins.tuple_gt [a; b] [ka; kb]) eqn:Hgt.
    + destruct (IH Hxs x a b) as (m & ma & mb & Hm & Hin & Hle & Hall).
      assert (Hlt : version_le (ka, kb) (a, b)).
      { destruct (Builtins.tuple_gt [ka; kb] [a; b]) eqn:Hrev.
        - exfalso. revert Hgt Hrev. cbn.
          destruct (Z.eqb_spec a ka), (Z.eqb_spec ka a),
                   (Z.eqb_spec b kb), (Z.eqb_spec kb b);
            rewrite ?Z.gtb_ltb, ?Z.ltb_lt; try lia; try discriminate.
        - apply tuple_gt_pair. exact Hrev. }
      exists m, ma, mb. split; [exact Hm|]. split; [|split].
      * right. destruct Hin as [[-> Heq]|[Hin Hk]].
        -- injection Heq as -> ->. split; [left; reflexivity|exact Hx].
        -- split; [right; exact Hin|exact Hk].
      * unfold version_le in *. cbn in *. lia.
      * intros y [<-|Hy]; [exists a, b; split; [exact Hx|exact Hle]|].
        apply Hall. exact Hy.
    + destruct (IH Hxs best ka kb) as (m & ma & mb & Hm & Hin & Hle & Hall).
      apply tuple_gt_pair in Hgt.
      exists m, ma, mb. split; [exact Hm|]. split; [|split].
      * destruct Hin as [Hb|[Hin Hk]]; [left; exact Hb|].
        right. split; [right; exact Hin|exact Hk].
      * exact Hle.
      * intros y [<-|Hy].
        -- exists a, b. split; [exact Hx|].
           unfold version_le in *. cbn in *. lia.
        -- apply Hall. exact Hy.
Qed.

Lemma max_greatest {A} (key : A -> result (list Z)) (l : list A) :
  l <> [] ->
  (forall x, In x l -> exists a b, key x = Ok [a; b]) ->
  exists m ma mb,
    Builtins.max l key = Ok m /\ In m l /\ key m = Ok [ma; mb]
    /\ (forall x, In x l ->
                  exists a b, key x = Ok [a; b] /\ version_le (a, b) (ma, mb)).
Proof.
  intros Hne Hkeys. destruct l as [|x xs]; [contradiction|].
  destruct (Hkeys x (or_introl eq_refl)) as (a & b & Hx).
  assert (Hxs : forall y, In y xs -> exists a b, key y = Ok [a; b]).
  { intros y Hy. apply Hkeys. right. exact Hy. }
  destruct (max_loop_greatest key xs Hxs x a b)
    as (m & ma & mb & Hm & Hin & Hle & Hall).
  exists m, ma, mb. unfold Builtins.max. rewrite Hx. cbn [rbind Ok].
  split; [exact Hm|]. split; [|split].
  - destruct Hin as [[-> _]|[Hin _]]; [left; reflexivity|right; exact Hin].
  - destruct Hin as [[-> Heq]|[_ Hk]]; [|exact Hk].
    injection Heq as -> ->. exact Hx.
  - intros y [<-|Hy]; [exists a, b; split; [exact Hx|exact Hle]|].
    apply Hall. exact Hy.
Qed.

Lemma filterM_scan (w : World) (P : PurePath -> bool) (l : list PurePath) :
  forall t,
    filterM (fun d =>
               bind (call (EvIsDir (str nt d)) (is_dir w (str nt d)))
                    (fun b => ret (b && P d))) l t
    = (fst (scan_entries w P l), (t ++ snd (scan_entries w P l))%list).
Proof.
  induction l as [|d l IH]; intros t.
  - cbn. rewrite app_nil_r. reflexivity.
  - cbn [filterM scan_entries]. unfold bind at 1. unfold bind at 1.
    unfold call at 1.
    destruct (is_dir w (str nt d)) as [e|b]; [reflexivity|].
    unfold ret at 1. cbv beta iota. unfold bind. rewrite IH.
    cbn [fst snd]. unfold ret, rbind, Ok.
    destruct (fst (scan_entries w P l)); rewrite <- app_assoc; reflexivity.
Qed.

(** When [is_dir] answers for every entry, the filter keeps the
    directories that satisfy [P] and has asked about each entry. *)
Lemma scan_entries_answered (w : World) (P : PurePath -> bool) (l : list PurePath) :
  (forall d, In d l -> exists b, is_dir w (str nt d) = Ok b) ->
  scan_entries w P l
  = (Ok (filter (fun d => is_dir_true w (str nt d) && P d) l),
     map (fun d => EvIsDir (str nt d)) l).
Proof.
  induction l as [|d l IH]; intros H; [reflexivity|].
  cbn [scan_entries filter map]. unfold is_dir_true at 1.
  destruct (H d (or_introl eq_refl)) as [b Hb]. rewrite Hb. unfold Ok at 1.
  rewrite IH by (intros d' Hd'; apply H; right; exact Hd').
  cbn [fst snd rbind Ok]. destruct (b && P d); reflexivity.
Qed.

Lemma scan_entries_ok (w : World) (P : PurePath -> bool) (l : list PurePath)
      (vs : list PurePath) :
  fst (scan_entries w P l) = Ok vs ->
  forall d, In d l -> exists b, is_dir w (str nt d) = Ok b.
Proof.
  revert vs. induction l as [|d l IH]; intros vs H d' Hd'; [destruct Hd'|].
  cbn [scan_entries] in H.
  destruct (is_dir w (str nt d)) as [e|b] eqn:Hb; [discriminate H|].
  cbn [fst] in H.
  destruct (fst (scan_entries w P l)) as [e|ys] eqn:Hl; [discriminate H|].
  destruct Hd' as [<-|Hd']; [exists b; exact Hb|].
  apply (IH ys eq_refl). exact Hd'.
Qed.

Lemma scan_entries_raise (w : World) (P : PurePath -> bool) (l : list PurePath)
      (e : exn) :
  fst (scan_entries w P l) = Raise e ->
  exists d, In d l /\ is_dir w (str nt d) = Raise e.
Proof.
  induction l as [|d l IH]; intros H; [discriminate H|].
  cbn [scan_entries] in H.
  destruct (is_dir w (str nt d)) as [e'|b] eqn:Hb.
  - cbn in H. injection H as <-. exists d. split; [left; reflexivity | exact Hb].
  - cbn [fst] in H.
    destruct (fst (scan_entries w P l)) as [e'|ys] eqn:Hl; [|discriminate H].
    cbn in H. injection H as <-. destruct (IH eq_refl) as (d' & Hin & Hd').
    exists d'. split; [right; exact Hin | exact Hd'].
Qed.

Lemma truediv_bin (p : PurePath) :
  truediv nt p "bin" = make_child_relpath p "bin".
Proof. reflexivity. Qed.

(** [_windowsLatestRocmBin], with its log. *)
Lemma windowsLatestRocmBin_eq (w : World) (path : string) (t : trace) :
  _windowsLatestRocmBin w path t
  = match listdir w (str nt (Path nt path)) with
    | inl e => (inl e, (t ++ [EvListdir (str nt (Path nt path))])%list)
    | inr names =>
        let entries := map (make_child_relpath (Path nt path)) names in
        (rbind (fst (scan_entries w (fun d => version_pattern_match (name d)) entries))
               (fun versions =>
                  rbind (Builtins.max versions version_key)
                        (fun latest => Ok (make_child_relpath latest "bin"))),
         (t ++ EvListdir (str nt (Path nt path))
            :: snd (scan_entries w (fun d => version_pattern_match (name d)) entries))%list)
    end.
Proof.
  unfold _windowsLatestRocmBin. cbv zeta.
  unfold bind at 1. unfold call at 1.
  destruct (listdir w (str nt (Path nt path))) as [e|names]; [reflexivity|].
  unfold bind at 1. rewrite filterM_scan. cbv beta iota.
  destruct (fst (scan_entries w _ _)) as [e|versions]; cbn [rbind];
    [rewrite <- app_assoc; reflexivity|].
  unfold bind, lift, ret, Ok. cbv beta iota.
  destruct (Builtins.max _ _) as [e|latest]; cbn [rbind];
    rewrite <- app_assoc; reflexivity.
Qed.

(** [_windowsLatestRocmBin] once the directory is listed and [is_dir] has
    answered for its entries. *)
Lemma windowsLatestRocmBin_listed (w : World) (path : string)
      (names : list string) (t : trace) :
  listdir w (str nt (Path nt path)) = Ok names ->
  (forall n, In n names ->
             exists b, is_dir w (str nt (make_child_relpath (Path nt path) n)) = Ok b) ->
  _windowsLatestRocmBin w path t
  = (rbind (Builtins.max (version_dirs w (Path nt path) names) version_key)
           (fun latest => Ok (make_child_relpath latest "bin")),
     (t ++ EvListdir (str nt (Path nt path))
        :: map (fun d => EvIsDir (str nt d))
               (map (make_child_relpath (Path nt path)) names))%list).
Proof.
  intros Hls Hdirs. rewrite windowsLatestRocmBin_eq. unfold Ok in Hls.
  rewrite Hls. cbv zeta.
  rewrite scan_entries_answered.
  - reflexivity.
  - intros d Hd. apply in_map_iff in Hd as (n & <- & Hn). apply Hdirs. exact Hn.
Qed.

(** A scan that returns has listed the root and had an answer from
    [is_dir] for each entry. *)
Lemma windowsLatestRocmBin_ok (w : World) (path : string) (t : trace) (p : PurePath) :
  fst (_windowsLatestRocmBin w path t) = Ok p ->
  exists names,
    listdir w (str nt (Path nt path)) = Ok names
    /\ (forall n, In n names ->
                  exists b, is_dir w (str nt (make_child_relpath (Path nt path) n)) = Ok b).
Proof.
  rewrite windowsLatestRocmBin_eq.
  destruct (listdir w (str nt (Path nt path))) as [e|names]; [discriminate|].
  cbv zeta. cbn [fst]. intros H. exists names. split; [reflexivity|].
  destruct (fst (scan_entries w (fun d => version_pattern_match (name d))
                              (map (make_child_relpath (Path nt path)) names)))
    as [e|vs] eqn:Hs; [discriminate H|].
  intros n Hn. apply (scan_entries_ok w _ _ vs Hs). apply in_map. exact Hn.
Qed.

(** C5, amended.  Among the entries of the root that are directories and
    whose names have the form [digits.digits], [_windowsLatestRocmBin]
    takes one whose pair (major, minor) - the numbers that the digits
    before and after the dot write - no other exceeds, the major number
    counting first, and returns it with the component [bin] appended: of
    [9.5], [10.0] and [9.8] it takes [10.0].  When no entry has that form,
    what is raised is the [ValueError] of [max] on an empty sequence, as
    it comes.  This is the scan when the root can be listed and [is_dir]
    answers for each entry. *)
Theorem windowsLatestRocmBin_greatest_version :
  (forall (w : World) (path : string) (names : list string) (t : trace),
      listdir w (str nt (Path nt path)) = Ok names ->
      (forall n, In n names ->
                 exists b, is_dir w (str nt (make_child_relpath (Path nt path) n)) = Ok b) ->
      (version_dirs w (Path nt path) names = [] ->
         fst (_windowsLatestRocmBin w path t)
         = Raise (Exn ValueError "max() arg is an empty sequence"))
      /\ (version_dirs w (Path nt path) names <> [] ->
          exists latest ma mi tl major minor,
            In latest (version_dirs w (Path nt path) names)
            /\ name latest = ma ++ "." ++ mi ++ tl
            /\ (tl = "" \/ tl = String PyStr.LF "")
            /\ decimal_number ma = Some major
            /\ decimal_number mi = Some minor
            /\ (forall d, In d (version_dirs w (Path nt path) names) ->
                          exists a b tl' x y,
                            name d = a ++ "." ++ b ++ tl'
                            /\ (tl' = "" \/ tl' = String PyStr.LF "")
                            /\ decimal_number a = Some x
                            /\ decimal_number b = Some y
                            /\ ((x < major)%Z \/ (x = major /\ (y <= minor)%Z)))
            /\ fst (_windowsLatestRocmBin w path t)
               = Ok (make_child_relpath latest "bin")))
  /\ (decimal_number "10" = Some 10%Z /\ decimal_number "9" = Some 9%Z
      /\ decimal_number "007" = Some 7%Z /\ decimal_number "" = None
      /\ decimal_number "1x" = None)
  /\ listdir Fixture.windows "C:\Program Files\AMD\ROCm"
     = Ok ["9.5"; "10.0"; "9.8"; "README.txt"]
  /\ option_map (str nt)
       (match fst (_windowsLatestRocmBin Fixture.windows "C:/Program Files/AMD/ROCm" []) with
        | inr p => Some p
        | inl _ => None
        end)
     = Some "C:\Program Files\AMD\ROCm\10.0\bin".
Proof.
  split; [|split; [repeat split|split; reflexivity]].
  intros w path names t Hls Hdirs.
  rewrite (windowsLatestRocmBin_listed w path names t Hls Hdirs). cbn [fst]. split.
  - intros ->. reflexivity.
  - intros Hne.
    assert (Hpat : forall d, In d (version_dirs w (Path nt path) names) ->
                             version_pattern_match (name d) = true).
    { intros d Hd. unfold version_dirs in Hd. apply filter_In in Hd as [_ Hd].
      apply andb_true_iff in Hd as [_ Hd]. exact Hd. }
    assert (Hkeys : forall d, In d (version_dirs w (Path nt path) names) ->
                              exists a b, version_key d = Ok [a; b]).
    { intros d Hd. apply version_key_pair. apply Hpat. exact Hd. }
    destruct (max_greatest version_key _ Hne Hkeys)
      as (m & ma & mb & Hm & Hin & Hk & Hall).
    destruct (version_key_numbers m (Hpat m Hin))
      as (sa & sb & tl & major & minor & Hname & Htl & Ha & Hb & Hk').
    rewrite Hk in Hk'. injection Hk' as -> ->.
    exists m, sa, sb, tl, major, minor. rewrite Hm.
    split; [exact Hin|]. split; [exact Hname|]. split; [exact Htl|].
    split; [exact Ha|]. split; [exact Hb|]. split; [|reflexivity].
    intros d Hd. destruct (Hall d Hd) as (a & b & Hkd & Hle).
    destruct (version_key_numbers d (Hpat d Hd))
      as (da & db & tl' & x & y & Hdn & Htl' & Hx & Hy & Hkd').
    rewrite Hkd in Hkd'. injection Hkd' as -> ->.
    exists da, db, tl', x, y. repeat split; try assumption.
Qed.

Lemma windowsLatestRocmBin_greatest_version_witness :
  listdir Fixture.windows (str nt (Path nt "C:/Program Files/AMD/ROCm"))
  = Ok ["9.5"; "10.0"; "9.8"; "README.txt"]
  /\ map name (version_dirs Fixture.windows (Path nt "C:/Program Files/AMD/ROCm")
                            ["9.5"; "10.0"; "9.8"; "README.txt"])
     = ["9.5"; "10.0"; "9.8"]
  /\ exists latest ma mi tl major minor,
       In latest (version_dirs Fixture.windows (Path nt "C:/Program Files/AMD/ROCm")
                               ["9.5"; "10.0"; "9.8"; "README.txt"])
       /\ name latest = ma ++ "." ++ mi ++ tl
       /\ (tl = "" \/ tl = String PyStr.LF "")
       /\ decimal_number ma = Some major
       /\ decimal_number mi = Some minor
       /\ (forall d, In d (version_dirs Fixture.windows
                             (Path nt "C:/Program Files/AMD/ROCm")
                             ["9.5"; "10.0"; "9.8"; "README.txt"]) ->
                     exists a b tl' x y,
                       name d = a ++ "." ++ b ++ tl'
                       /\ (tl' = "" \/ tl' = String PyStr.LF "")
                       /\ decimal_number a = Some x
                       /\ decimal_number b = Some y
                       /\ ((x < major)%Z \/ (x = major /\ (y <= minor)%Z)))
       /\ fst (_windowsLatestRocmBin Fixture.windows "C:/Program Files/AMD/ROCm" [])
          = Ok (make_child_relpath latest "bin").
Proof.
  split; [reflexivity|]. split; [reflexivity|].
  apply (proj2 (proj1 windowsLatestRocmBin_greatest_version
                      Fixture.windows "C:/Program Files/AMD/ROCm"
                      ["9.5"; "10.0"; "9.8"; "README.txt"] [] eq_refl
                      ltac:(intros n Hn; eexists; reflexivity))).
  intros H. vm_compute in H. discriminate H.
Defined.

(** C5 as stated fails where the root holds no directory named as a
    version: the scan, and with it the import of the module, ends in the
    [ValueError] that [max] raises on an empty sequence; no error of the
    module's own is raised in its place. *)
Lemma windowsLatestRocmBin_no_version_max_error :
  listdir Fixture.windows_no_version "C:\Program Files\AMD\ROCm" = Ok ["docs"]
  /\ version_dirs Fixture.windows_no_version (Path nt "C:/Program Files/AMD/ROCm") ["docs"]
     = []
  /\ _windowsLatestRocmBin Fixture.windows_no_version "C:/Program Files/AMD/ROCm" []
     = (Raise Builtins.max_empty,
        [EvListdir "C:\Program Files\AMD\ROCm";
         EvIsDir "C:\Program Files\AMD\ROCm\docs"])
  /\ Builtins.max (@nil PurePath) version_key = Raise Builtins.max_empty
  /\ fst (import_module Fixture.windows_no_version [])
     = Raise (Exn ValueError "max() arg is an empty sequence").
Proof. repeat split. Qed.

(* ================================================================== *)
(** * Further properties of the module *)

(** ** The classifier, continued *)

Lemma supported_spec (w : World) (r : Role) (name : string) :
  supported w r name = true
  <-> name = canonical (os_name w) r
      \/ Pathlib.name (Path (os_name w) name) = canonical (os_name w) r.
Proof.
  destruct r; cbn [supported canonical];
    unfold supportedCCompiler, supportedCxxCompiler,
           supportedOffloadBundler, supportedHip;
    apply supportedComponent_one.
Qed.

(** A default name is one component: it is its own final component. *)
Lemma canonical_is_own_name (o : OsName) (r : Role) :
  Pathlib.name (Path o (canonical o r)) = canonical o r.
Proof. destruct o, r; reflexivity. Qed.

Lemma canonical_injective (o : OsName) (r1 r2 : Role) :
  canonical o r1 = canonical o r2 -> r1 = r2.
Proof. destruct o, r1, r2; cbn; intros H; try reflexivity; discriminate H. Qed.

(** The first test of [_supportedComponent] adds nothing to the second:
    for each role a name is accepted exactly when its final path
    component is the default name of the role. *)
Theorem supported_iff_final_component :
  forall (w : World) (r : Role) (name : string),
    supported w r name = true
    <-> Pathlib.name (Path (os_name w) name) = canonical (os_name w) r.
Proof.
  intros w r name. rewrite supported_spec. split.
  - intros [-> | H]; [apply canonical_is_own_name | exact H].
  - intros H. right. exact H.
Qed.

(** The four predicates exclude one another: no name is accepted for two
    roles. *)
Theorem supported_for_at_most_one_role :
  forall (w : World) (r1 r2 : Role) (name : string),
    supported w r1 name = true ->
    supported w r2 name = true ->
    r1 = r2.
Proof.
  intros w r1 r2 name H1 H2.
  assert (E1 : Pathlib.name (Path (os_name w) name) = canonical (os_name w) r1).
  { apply supported_spec in H1 as [-> | H]; [apply canonical_is_own_name | exact H]. }
  assert (E2 : Pathlib.name (Path (os_name w) name) = canonical (os_name w) r2).
  { apply supported_spec in H2 as [-> | H]; [apply canonical_is_own_name | exact H]. }
  apply (canonical_injective (os_name w)). congruence.
Qed.

Lemma supported_for_at_most_one_role_witness :
  supported Fixture.linux CxxCompiler "/usr/bin/amdclang++" = true
  /\ CxxCompiler = CxxCompiler.
Proof.
  split; [reflexivity|].
  exact (supported_for_at_most_one_role
           Fixture.linux CxxCompiler CxxCompiler "/usr/bin/amdclang++"
           eq_refl eq_refl).
Defined.

(** ** The resolver, continued *)

Definition is_access_event (e : event) : bool :=
  match e with EvAccess _ => true | _ => false end.

(** The host calls of the resolver: the reading of the environment and
    the probes of [os.access]. *)
Definition is_resolver_event (e : event) : bool :=
  match e with EvAccess _ | EvEnviron _ => true | _ => false end.

(** [os.access] raises only [ValueError], and only for a path with a null
    character in it or, on Windows, one that is too long. *)
Lemma os_access_raise (w : World) (p : string) (e : exn) :
  os_access w p = Raise e ->
  exn_cls e = ValueError
  /\ (PyStr.contains_char Ascii.zero p = true
      \/ (os_name w = nt /\ (32767 < Z.of_nat (String.length p))%Z)).
Proof.
  unfold os_access. destruct (os_name w).
  - destruct (PyStr.contains_char Ascii.zero p); [|discriminate].
    intros H. injection H as <-. split; [reflexivity | left; reflexivity].
  - destruct (Z.ltb 32767 (Z.of_nat (String.length p))) eqn:Hlen.
    + intros H. injection H as <-. split; [reflexivity|].
      right. split; [reflexivity | apply Z.ltb_lt; exact Hlen].
    + destruct (PyStr.contains_char Ascii.zero p); [|discriminate].
      intros H. injection H as <-. split; [reflexivity | left; reflexivity].
Qed.

Lemma probe_cons (w : World) (file : string) (d : PurePath)
      (rest : list PurePath) (t : trace) :
  probe w file (d :: rest) t
  = match os_access w (candidate w d file) with
    | inl e => (inl e, (t ++ [EvAccess (candidate w d file)])%list)
    | inr true => (Ok (Some (candidate w d file)),
                   (t ++ [EvAccess (candidate w d file)])%list)
    | inr false => probe w file rest (t ++ [EvAccess (candidate w d file)])%list
    end.
Proof.
  unfold probe. cbv zeta. unfold bind at 1. rewrite exeExists_eq.
  fold (candidate w d file).
  destruct (os_access w (candidate w d file)) as [e|[]]; reflexivity.
Qed.

(** What the loop over the search path can end in, and what it costs. *)
Lemma probe_outcome (w : World) (file : string) (sp : list PurePath) :
  forall t,
    exists r evs,
      probe w file sp t = (r, (t ++ evs)%list)
      /\ forallb is_access_event evs = true
      /\ length evs <= length sp
      /\ match r with
         | inr (Some p) => exists d, In d sp /\ p = candidate w d file
                                     /\ os_access w p = Ok true
         | inr None => forall d, In d sp -> os_access w (candidate w d file) = Ok false
         | inl e => exists evs' d,
                      evs = (evs' ++ [EvAccess (candidate w d file)])%list
                      /\ In d sp
                      /\ os_access w (candidate w d file) = Raise e
         end.
Proof.
  induction sp as [|d rest IH]; intros t.
  - exists (Ok None), []. cbn. rewrite app_nil_r. repeat split; [lia | intros d []].
  - rewrite probe_cons. destruct (os_access w (candidate w d file)) as [e|[]] eqn:Hd.
    + exists (inl e), [EvAccess (candidate w d file)].
      repeat split; [cbn; lia|]. exists [], d.
      repeat split; [left; reflexivity | exact Hd].
    + exists (Ok (Some (candidate w d file))), [EvAccess (candidate w d file)].
      repeat split; [cbn; lia|]. exists d. repeat split; [left; reflexivity|exact Hd].
    + destruct (IH (t ++ [EvAccess (candidate w d file)])%list)
        as (r & evs & Hrun & Hev & Hlen & Hr).
      exists r, (EvAccess (candidate w d file) :: evs). rewrite Hrun.
      split; [rewrite <- app_assoc; reflexivity|].
      split; [exact Hev|]. split; [cbn; lia|].
      destruct r as [e|[p|]].
      * destruct Hr as (evs' & d' & Hevs & Hin & Hacc).
        exists (EvAccess (candidate w d file) :: evs'), d'.
        repeat split; [rewrite Hevs; reflexivity | right; exact Hin | exact Hacc].
      * destruct Hr as (d' & Hin & Hp & Hacc). exists d'.
        repeat split; [right; exact Hin | exact Hp | exact Hacc].
      * intros d' [<-|Hin]; [exact Hd | apply Hr; exact Hin].
Qed.

(** [_validateExecutable], case by case. *)
Lemma validateExecutable_cases (w : World) (file : string)
      (sp : list PurePath) (t : trace) :
  _validateExecutable w file sp t
  = if supported_any w file then
      match directly_executable w file with
      | inl e => (inl e, (t ++ [EvAccess (str (os_name w) (Path (os_name w) file))])%list)
      | inr true =>
          (Ok file, (t ++ [EvAccess (str (os_name w) (Path (os_name w) file))])%list)
      | inr false =>
          match probe w file sp
                      (t ++ [EvAccess (str (os_name w) (Path (os_name w) file))])%list with
          | (inr (Some p), t') => (Ok p, t')
          | (inr None, t') =>
              (Raise (Exn FileNotFoundError (not_found_msg w file sp)), t')
          | (inl e, t') => (inl e, t')
          end
      end
    else (Raise (Exn ValueError (unsupported_msg w file)), t).
Proof.
  destruct (supported_any w file) eqn:Hs.
  - rewrite validateExecutable_supported by exact Hs.
    unfold bind at 1. rewrite exeExists_eq.
    unfold directly_executable.
    destruct (os_access w _) as [e|[]]; [reflexivity|reflexivity|].
    unfold bind. destruct (probe w file sp _) as [[e|[p|]] t']; reflexivity.
  - apply validateExecutable_unsupported. exact Hs.
Qed.

(** Every run of [_validateExecutable] ends in one of four ways: a path,
    the error for an unsupported component, the error of a failed search,
    or the [ValueError] with which [os.access] refuses the last path
    probed - a path with a null character in it or, on Windows, one of
    more than 32767 characters.  It calls nothing but [os.access], at most
    once for the name itself and once for each directory of the search
    path, and not at all for an unsupported name; a failed search has
    probed them all. *)
Theorem validateExecutable_outcomes_and_cost :
  forall (w : World) (file : string) (sp : list PurePath) (t : trace),
    exists evs,
      snd (_validateExecutable w file sp t) = (t ++ evs)%list
      /\ forallb is_access_event evs = true
      /\ length evs <= S (length sp)
      /\ ((exists p, fst (_validateExecutable w file sp t) = Ok p)
          \/ (fst (_validateExecutable w file sp t)
              = Raise (Exn ValueError (unsupported_msg w file))
              /\ evs = [])
          \/ (fst (_validateExecutable w file sp t)
              = Raise (Exn FileNotFoundError (not_found_msg w file sp))
              /\ length evs = S (length sp))
          \/ (exists e evs' p,
                 fst (_validateExecutable w file sp t) = Raise e
                 /\ evs = (evs' ++ [EvAccess p])%list
                 /\ os_access w p = Raise e
                 /\ exn_cls e = ValueError
                 /\ (PyStr.contains_char Ascii.zero p = true
                     \/ (os_name w = nt
                         /\ (32767 < Z.of_nat (String.length p))%Z)))).
Proof.
  intros w file sp t. rewrite validateExecutable_cases.
  destruct (supported_any w file).
  - destruct (directly_executable w file) as [e|[]] eqn:Hd.
    + exists [EvAccess (str (os_name w) (Path (os_name w) file))].
      repeat split; [cbn; lia|]. right. right. right.
      destruct (os_access_raise w _ e Hd) as [Hcls Hwhy].
      exists e, [], (str (os_name w) (Path (os_name w) file)).
      split; [reflexivity|]. split; [reflexivity|]. split; [exact Hd|].
      split; [exact Hcls | exact Hwhy].
    + exists [EvAccess (str (os_name w) (Path (os_name w) file))].
      repeat split; [cbn; lia|]. left. eexists. reflexivity.
    + destruct (probe_outcome w file sp
                  (t ++ [EvAccess (str (os_name w) (Path (os_name w) file))])%list)
        as (r & evs & Hrun & Hev & Hlen & Hr).
      exists (EvAccess (str (os_name w) (Path (os_name w) file)) :: evs).
      rewrite Hrun. destruct r as [e|[p|]]; cbn [fst snd].
      * split; [rewrite <- app_assoc; reflexivity|].
        split; [exact Hev|]. split; [cbn; lia|]. right. right. right.
        destruct Hr as (evs' & d & Hevs & _ & Hacc).
        destruct (os_access_raise w _ e Hacc) as [Hcls Hwhy].
        exists e, (EvAccess (str (os_name w) (Path (os_name w) file)) :: evs'),
               (candidate w d file).
        split; [reflexivity|]. split; [rewrite Hevs; reflexivity|].
        split; [exact Hacc|]. split; [exact Hcls | exact Hwhy].
      * split; [rewrite <- app_assoc; reflexivity|].
        split; [exact Hev|]. split; [cbn; lia|]. left. eexists. reflexivity.
      * split; [rewrite <- app_assoc; reflexivity|].
        split; [exact Hev|]. split; [cbn; lia|]. right. right. left.
        split; [reflexivity|]. cbn [length]. f_equal.
        rewrite (probe_no_match w file sp Hr _) in Hrun.
        injection Hrun as Hrun. apply app_inv_head in Hrun.
        rewrite <- Hrun. apply length_map.
  - exists []. cbn. rewrite app_nil_r. repeat split; [lia|].
    right. left. split; reflexivity.
Qed.

(** A supported name with a null character in it: the first probe is
    refused. *)
Example validateExecutable_null_character :
  supported Fixture.linux CCompiler ("d" ++ String Ascii.zero "/amdclang") = true
  /\ _validateExecutable Fixture.linux ("d" ++ String Ascii.zero "/amdclang")
       (search_paths Fixture.linux Fixture.posix_globals "/usr/local/bin:/usr/bin") []
     = (Raise (Exn ValueError "embedded null byte"),
        [EvAccess ("d" ++ String Ascii.zero "/amdclang")]).
Proof. split; reflexivity. Qed.

(** Whatever [_validateExecutable] returns was accepted by a role and
    answers a probe that succeeded.  Either it is the name as it was
    given, and what [os.access] approved is the name parsed as a path and
    printed (which may differ from the name: a trailing slash is dropped
    in it); or the name so printed was refused, and the result is the
    candidate under a directory of the search path, which is the very
    string that [os.access] approved. *)
Theorem validateExecutable_returns_probed_executable :
  forall (w : World) (file : string) (sp : list PurePath) (t : trace) (p : string),
    fst (_validateExecutable w file sp t) = Ok p ->
    (exists r, supported w r file = true)
    /\ ((p = file
         /\ os_access w (str (os_name w) (Path (os_name w) file)) = Ok true)
        \/ (os_access w (str (os_name w) (Path (os_name w) file)) = Ok false
            /\ exists d, In d sp
                         /\ p = str (os_name w) (truediv (os_name w) d file)
                         /\ os_access w p = Ok true)).
Proof.
  intros w file sp t p. rewrite validateExecutable_cases.
  destruct (supported_any w file) eqn:Hs; [|discriminate].
  intros H. split; [apply supported_any_true; exact Hs|].
  unfold directly_executable in H.
  destruct (os_access w (str (os_name w) (Path (os_name w) file)))
    as [e|[]] eqn:Hd; [discriminate H| |].
  - left. cbn in H. injection H as <-. split; reflexivity.
  - right. split; [reflexivity|].
    destruct (probe_outcome w file sp
                (t ++ [EvAccess (str (os_name w) (Path (os_name w) file))])%list)
      as (r & evs & Hrun & _ & _ & Hr).
    rewrite Hrun in H. destruct r as [e|[q|]]; [discriminate| |discriminate].
    cbn in H. injection H as <-. exact Hr.
Qed.

Lemma validateExecutable_returns_probed_executable_witness :
  fst (_validateExecutable Fixture.linux "amdclang++"
         (search_paths Fixture.linux Fixture.posix_globals "/usr/local/bin:/usr/bin") [])
  = Ok "/opt/rocm/lib/llvm/bin/amdclang++"
  /\ os_access Fixture.linux "/opt/rocm/lib/llvm/bin/amdclang++" = Ok true.
Proof.
  split; [reflexivity|].
  destruct (validateExecutable_returns_probed_executable
              Fixture.linux "amdclang++"
              (search_paths Fixture.linux Fixture.posix_globals "/usr/local/bin:/usr/bin")
              [] "/opt/rocm/lib/llvm/bin/amdclang++" eq_refl)
    as [_ [[_ H]|[_ (d & _ & _ & H)]]].
  - discriminate H.
  - exact H.
Defined.

(** The result of [_validateExecutable] does not depend on the log it
    starts from, and the calls it makes are added to that log. *)
Lemma probe_frame (w : World) (file : string) (sp : list PurePath) :
  forall t,
    probe w file sp t
    = (fst (probe w file sp []), (t ++ snd (probe w file sp []))%list).
Proof.
  induction sp as [|d rest IH]; intros t.
  - cbn. rewrite app_nil_r. reflexivity.
  - rewrite !probe_cons. destruct (os_access w (candidate w d file)) as [e|[]].
    + reflexivity.
    + reflexivity.
    + rewrite (IH (t ++ [EvAccess (candidate w d file)])%list).
      rewrite (IH ([] ++ [EvAccess (candidate w d file)])%list).
      cbn [fst snd app]. rewrite <- app_assoc. reflexivity.
Qed.

Lemma validateExecutable_frame (w : World) (file : string) (sp : list PurePath)
      (t : trace) :
  _validateExecutable w file sp t
  = (fst (_validateExecutable w file sp []),
     (t ++ snd (_validateExecutable w file sp []))%list).
Proof.
  rewrite !validateExecutable_cases. destruct (supported_any w file).
  - destruct (directly_executable w file) as [e|[]]; [reflexivity|reflexivity|].
    rewrite (probe_frame w file sp (t ++ _)%list).
    rewrite (probe_frame w file sp ([] ++ _)%list).
    destruct (probe w file sp []) as [[e|[p|]] t']; cbn [fst snd app];
      rewrite <- app_assoc; reflexivity.
  - cbn. rewrite app_nil_r. reflexivity.
Qed.

Lemma mapM_validate (w : World) (sp : list PurePath) (names : list string) :
  forall t,
    mapM (fun n => _validateExecutable w n sp) names t
    = (rmap (fun n => fst (_validateExecutable w n sp [])) names,
       (t ++ snd (mapM (fun n => _validateExecutable w n sp) names []))%list).
Proof.
  induction names as [|x xs IH]; intros t.
  - cbn. rewrite app_nil_r. reflexivity.
  - cbn [mapM rmap]. unfold bind at 1 3.
    rewrite (validateExecutable_frame w x sp t).
    destruct (_validateExecutable w x sp []) as [[e|p] tx]; cbn [fst snd rbind].
    + reflexivity.
    + unfold bind. rewrite (IH (t ++ tx)%list). rewrite (IH tx).
      cbn [fst snd]. unfold ret, rbind, Ok.
      destruct (rmap _ xs); rewrite <- app_assoc; reflexivity.
Qed.

(** With two or more names the result is the tuple of what each name
    resolves to by itself, in the order given, all against the same
    search path.  The first name that fails gives the error of the call,
    and the names after it are not probed. *)
Theorem validateToolchain_tuple_in_order :
  forall (w : World) (g : Globals) (x y : string) (more : list string)
         (PATH : string) (t : trace),
    environ w "PATH" = Some PATH ->
    fst (validateToolchain w g (x :: y :: more) t)
    = rbind (rmap (fun n => fst (_validateExecutable w n (search_paths w g PATH) []))
                  (x :: y :: more))
            (fun ps => Ok (Tuple ps))
    /\ (forall e,
           fst (_validateExecutable w x (search_paths w g PATH) []) = Raise e ->
           validateToolchain w g (x :: y :: more) t
           = (Raise e,
              (t ++ EvEnviron "PATH"
                 :: snd (_validateExecutable w x (search_paths w g PATH) []))%list)).
Proof.
  intros w g x y more PATH t HP.
  rewrite (validateToolchain_many w g x y more PATH t HP). split.
  - unfold bind. rewrite mapM_validate. cbn [fst].
    destruct (rmap _ (x :: y :: more)); reflexivity.
  - intros e He. cbn [mapM]. unfold bind at 1 2.
    rewrite (validateExecutable_frame w x _ (t ++ [EvEnviron "PATH"])%list).
    rewrite He. unfold Raise. rewrite <- app_assoc. reflexivity.
Qed.

Lemma validateToolchain_tuple_in_order_witness :
  fst (validateToolchain Fixture.linux Fixture.posix_globals
         ["amdclang++"; "hipconfig"] [])
  = Ok (Tuple ["/opt/rocm/lib/llvm/bin/amdclang++"; "/usr/bin/hipconfig"])
  /\ validateToolchain Fixture.linux Fixture.posix_globals
       ["amdclang"; "hipconfig"] []
     = (Raise (Exn FileNotFoundError
          "`amdclang` either not found or not executable in any search path: /opt/rocm/bin:/opt/rocm/lib/llvm/bin:/usr/local/bin:/usr/bin"),
        [EvEnviron "PATH"; EvAccess "amdclang"; EvAccess "/opt/rocm/bin/amdclang";
         EvAccess "/opt/rocm/lib/llvm/bin/amdclang";
         EvAccess "/usr/local/bin/amdclang"; EvAccess "/usr/bin/amdclang"]).
Proof.
  split.
  - exact (proj1 (validateToolchain_tuple_in_order
                    Fixture.linux Fixture.posix_globals "amdclang++" "hipconfig" []
                    "/usr/local/bin:/usr/bin" [] eq_refl)).
  - exact (proj2 (validateToolchain_tuple_in_order
                    Fixture.linux Fixture.posix_globals "amdclang" "hipconfig" []
                    "/usr/local/bin:/usr/bin" [] eq_refl)
                 _ eq_refl).
Defined.

Lemma access_events_are_resolver_events (evs : list event) :
  forallb is_access_event evs = true -> forallb is_resolver_event evs = true.
Proof.
  induction evs as [|e evs IH]; [reflexivity|]. cbn.
  intros H. apply andb_true_iff in H as [He Hevs].
  rewrite (IH Hevs), andb_true_r. destruct e; try discriminate He; reflexivity.
Qed.

Lemma validateExecutable_events (w : World) (file : string) (sp : list PurePath) :
  forallb is_access_event (snd (_validateExecutable w file sp [])) = true
  /\ (forall e, fst (_validateExecutable w file sp []) = Raise e ->
                exn_cls e = ValueError \/ exn_cls e = FileNotFoundError).
Proof.
  rewrite validateExecutable_cases. destruct (supported_any w file).
  - destruct (directly_executable w file) as [e|[]] eqn:Hd.
    + split; [reflexivity|]. intros e' H. injection H as <-. left.
      exact (proj1 (os_access_raise w _ e Hd)).
    + split; [reflexivity | discriminate].
    + destruct (probe_outcome w file sp
                  ([] ++ [EvAccess (str (os_name w) (Path (os_name w) file))])%list)
        as (r & evs & Hrun & Hev & _ & Hr).
      rewrite Hrun. destruct r as [e|[p|]]; cbn [fst snd app].
      * split; [exact Hev|]. intros e' H. injection H as <-. left.
        destruct Hr as (_ & d & _ & _ & Hacc).
        exact (proj1 (os_access_raise w _ e Hacc)).
      * split; [exact Hev | discriminate].
      * split; [exact Hev|]. intros e H. injection H as <-. right. reflexivity.
  - split; [reflexivity|]. intros e H. injection H as <-. left. reflexivity.
Qed.

Lemma rmap_raise {A B} (f : A -> result B) (l : list A) (e : exn) :
  rmap f l = Raise e -> exists x, In x l /\ f x = Raise e.
Proof.
  induction l as [|x xs IH]; cbn; [discriminate|].
  destruct (f x) as [e1|y] eqn:Hx; cbn.
  - intros H. injection H as <-. exists x. split; [left; reflexivity | exact Hx].
  - destruct (rmap f xs) as [e2|ys]; cbn; [|discriminate].
    intros H. injection H as <-. destruct (IH eq_refl) as (x' & Hin & Hx').
    exists x'. split; [right; exact Hin | exact Hx'].
Qed.

Lemma mapM_validate_events (w : World) (sp : list PurePath) (names : list string) :
  forallb is_access_event
          (snd (mapM (fun n => _validateExecutable w n sp) names [])) = true.
Proof.
  induction names as [|x xs IH]; [reflexivity|].
  cbn [mapM]. unfold bind at 1.
  pose proof (proj1 (validateExecutable_events w x sp)) as Hx.
  destruct (_validateExecutable w x sp []) as [[e|p] tx]; cbn [snd] in *.
  - exact Hx.
  - unfold bind. rewrite (mapM_validate w sp xs tx). unfold ret.
    destruct (rmap _ xs); cbn [snd]; rewrite forallb_app, Hx, IH; reflexivity.
Qed.

(** [validateToolchain] only looks: whatever the arguments and the host,
    the calls it makes are one reading of the environment and probes of
    [os.access] - it runs no command and lists no directory - and an
    error it raises is a [ValueError], a [KeyError] or a
    [FileNotFoundError]. *)
Theorem validateToolchain_only_probes :
  forall (w : World) (g : Globals) (args : list string) (t : trace),
    exists evs,
      snd (validateToolchain w g args t) = (t ++ evs)%list
      /\ forallb is_resolver_event evs = true
      /\ (forall e,
             fst (validateToolchain w g args t) = Raise e ->
             exn_cls e = ValueError \/ exn_cls e = KeyError
             \/ exn_cls e = FileNotFoundError).
Proof.
  intros w g args t. destruct args as [|x rest].
  - exists []. cbn. rewrite app_nil_r. repeat split.
    intros e H. injection H as <-. left. reflexivity.
  - destruct (environ w "PATH") as [PATH|] eqn:HP.
    + destruct rest as [|y more].
      * rewrite (validateToolchain_one w g x PATH t HP). unfold bind.
        rewrite (validateExecutable_frame w x _ (t ++ [EvEnviron "PATH"])%list).
        destruct (validateExecutable_events w x (search_paths w g PATH)) as [Hev Herr].
        exists (EvEnviron "PATH" :: snd (_validateExecutable w x (search_paths w g PATH) [])).
        destruct (fst (_validateExecutable w x (search_paths w g PATH) [])) as [e|p];
          cbn [fst snd]; (split; [rewrite <- app_assoc; reflexivity|]);
          (split; [cbn; apply access_events_are_resolver_events; exact Hev|]).
        -- intros e' H. injection H as <-.
           destruct (Herr e eq_refl) as [H|H]; rewrite H; auto.
        -- discriminate.
      * rewrite (validateToolchain_many w g x y more PATH t HP). unfold bind.
        rewrite mapM_validate.
        exists (EvEnviron "PATH"
                  :: snd (mapM (fun n => _validateExecutable w n (search_paths w g PATH))
                               (x :: y :: more) [])).
        pose proof (mapM_validate_events w (search_paths w g PATH) (x :: y :: more)) as Hev.
        destruct (rmap _ (x :: y :: more)) as [e|ps] eqn:Hr;
          cbn [fst snd]; (split; [rewrite <- app_assoc; reflexivity|]);
          (split; [cbn; apply access_events_are_resolver_events; exact Hev|]).
        -- intros e' H. injection H as <-.
           destruct (rmap_raise _ _ _ Hr) as (n & _ & Hn).
           destruct (proj2 (validateExecutable_events w n (search_paths w g PATH)) e Hn)
             as [H|H]; rewrite H; auto.
        -- discriminate.
    + exists [EvEnviron "PATH"]. unfold validateToolchain.
      rewrite (bind_raise _ _ _ _ _ (environ_PATH_unset w t HP)).
      repeat split. intros e H. injection H as <-. right. left. reflexivity.
Qed.

(** ** Paths in the search *)

Lemma is_empty_eq (s : string) : PyStr.is_empty s = true -> s = "".
Proof. destruct s; [reflexivity | discriminate]. Qed.

Lemma lower_empty (s : string) : PyStr.lower s = "" -> s = "".
Proof. destruct s; [reflexivity | discriminate]. Qed.

(** Joining anything to the empty path gives it back. *)
Lemma join_empty_path (q : PurePath) :
  join_parsed_parts (mkPath "" "" []) q = q.
Proof.
  unfold join_parsed_parts. cbn [drv root tail PyStr.is_empty app].
  destruct q as [d r tl]. cbn [drv root tail].
  destruct r as [|c r]; cbn [PyStr.is_empty negb].
  - destruct d as [|c d]; cbn [PyStr.is_empty negb]; reflexivity.
  - rewrite andb_false_r. reflexivity.
Qed.

(** An empty entry of [PATH] - and so an empty [PATH] - stands for the
    current directory: the candidate probed under it is the name itself,
    and an empty [PATH] leaves that entry as the only one after the two
    directories of ROCm. *)
Theorem empty_PATH_entry_is_current_directory :
  forall (w : World) (g : Globals) (file : string),
    str (os_name w) (truediv (os_name w) (Path (os_name w) "") file)
    = str (os_name w) (Path (os_name w) file)
    /\ ([ROCM_BIN_PATH g; ROCM_LLVM_BIN_PATH g]
          ++ map (Path (os_name w)) (PyStr.split (pathsep w) ""))%list
       = [ROCM_BIN_PATH g; ROCM_LLVM_BIN_PATH g; Path (os_name w) ""]
    /\ str (os_name w) (Path (os_name w) "") = ".".
Proof.
  intros w g file. split; [|split].
  - unfold truediv. change (Path (os_name w) "") with (mkPath "" "" []).
    rewrite join_empty_path. reflexivity.
  - reflexivity.
  - reflexivity.
Qed.

Lemma posix_drv_empty (s : string) : drv (Path posix s) = "".
Proof.
  unfold Path. destruct (PyStr.is_empty s); [reflexivity|].
  cbn [splitroot]. unfold posix_splitroot.
  destruct (PyStr.char_is "/" (PyStr.first s)); [|reflexivity].
  destruct (Nat.eqb _ 2); reflexivity.
Qed.

Lemma posix_rooted (s : string) :
  PyStr.startswith "/" s = true -> root (Path posix s) <> "".
Proof.
  destruct s as [|c s]; [discriminate|]. cbn [PyStr.startswith String.prefix].
  destruct (Ascii.ascii_dec "/" c) as [<-|]; [|discriminate]. intros _.
  unfold Path. cbn [PyStr.is_empty splitroot]. unfold posix_splitroot.
  cbn [PyStr.first PyStr.char_is]. rewrite Ascii.eqb_refl.
  destruct (Nat.eqb _ 2); cbn; discriminate.
Qed.

(** Under a directory without a drive, a rooted path stays what it is. *)
Lemma join_rooted (p q : PurePath) :
  drv p = "" -> root q <> "" -> join_parsed_parts p q = q.
Proof.
  intros Hp Hq. unfold join_parsed_parts. rewrite Hp.
  destruct (root q) as [|c r]; [contradiction|].
  cbn [PyStr.is_empty negb]. rewrite andb_false_r. reflexivity.
Qed.

Lemma import_posix_globals (w : World) (g : Globals) :
  os_name w = posix ->
  fst (import_module w []) = Ok g -> g = Fixture.posix_globals.
Proof.
  intros Hos H. unfold import_module in H. cbv zeta in H. rewrite Hos in H.
  cbn in H. injection H as <-. reflexivity.
Qed.

(** On POSIX, with the globals that the import set, the search path plays
    no part for a name that begins with a slash: under every directory the candidate is that same absolute
    path.  So a supported absolute name that is not executable is not
    found, whatever [PATH] holds. *)
Theorem absolute_name_is_not_searched_posix :
  forall (w : World) (g : Globals) (file PATH : string) (t : trace),
    os_name w = posix ->
    fst (import_module w []) = Ok g ->
    environ w "PATH" = Some PATH ->
    (exists r, supported w r file = true) ->
    PyStr.startswith "/" file = true ->
    directly_executable w file = Ok false ->
    (forall d, In d (search_paths w g PATH) ->
               candidate w d file = str posix (Path posix file))
    /\ fst (validateToolchain w g [file] t)
       = Raise (Exn FileNotFoundError
           (not_found_msg w file (search_paths w g PATH))).
Proof.
  intros w g file PATH t Hos Himp HP Hs Habs Hd.
  apply (import_posix_globals w g Hos) in Himp. subst g.
  assert (Hcand : forall d, In d (search_paths w Fixture.posix_globals PATH) ->
                            candidate w d file = str posix (Path posix file)).
  { intros d Hin. unfold candidate, truediv. rewrite Hos.
    rewrite join_rooted; [reflexivity | | apply posix_rooted; exact Habs].
    unfold search_paths in Hin. rewrite Hos in Hin.
    destruct Hin as [<-|[<-|Hin]]; [reflexivity|reflexivity|].
    apply in_map_iff in Hin as (s & <- & _). apply posix_drv_empty. }
  split; [exact Hcand|].
  apply supported_any_true in Hs.
  rewrite (validateToolchain_one w _ file PATH t HP).
  rewrite (bind_raise _ _ _ _ _
             (validateExecutable_not_found w file _ _ Hs Hd
                ltac:(intros d Hin; rewrite (Hcand d Hin);
                      unfold directly_executable in Hd; rewrite Hos in Hd; exact Hd))).
  reflexivity.
Qed.

Lemma absolute_name_is_not_searched_posix_witness :
  directly_executable Fixture.linux "/opt/bin/amdclang++" = Ok false
  /\ fst (validateToolchain Fixture.linux Fixture.posix_globals ["/opt/bin/amdclang++"] [])
     = Raise (Exn FileNotFoundError
         "`/opt/bin/amdclang++` either not found or not executable in any search path: /opt/rocm/bin:/opt/rocm/lib/llvm/bin:/usr/local/bin:/usr/bin").
Proof.
  split; [reflexivity|].
  exact (proj2 (absolute_name_is_not_searched_posix
                  Fixture.linux Fixture.posix_globals
                  "/opt/bin/amdclang++" "/usr/local/bin:/usr/bin" []
                  eq_refl eq_refl eq_refl (ex_intro _ CxxCompiler eq_refl)
                  eq_refl eq_refl)).
Defined.

Lemma validateToolchain_not_found_lists_search_path_witness :
  directly_executable Fixture.linux "amdclang" = Ok false
  /\ fst (validateToolchain Fixture.linux Fixture.posix_globals ["amdclang"] [])
     = Raise (Exn FileNotFoundError
         "`amdclang` either not found or not executable in any search path: /opt/rocm/bin:/opt/rocm/lib/llvm/bin:/usr/local/bin:/usr/bin").
Proof.
  split; [reflexivity|].
  refine (validateToolchain_not_found_lists_search_path
            Fixture.linux Fixture.posix_globals "amdclang" "/usr/local/bin:/usr/bin" []
            eq_refl (ex_intro _ CCompiler eq_refl) eq_refl _).
  intros d [<-|[<-|[<-|[<-|[]]]]]; reflexivity.
Defined.

Lemma supported_behind_any_prefix_posix_witness :
  os_name Fixture.linux = posix
  /\ supported Fixture.linux OffloadBundler
       ("../build/./tools//bin" ++ "/" ++ "clang-offload-bundler") = true.
Proof.
  split; [reflexivity|].
  exact (supported_behind_any_prefix_posix
           Fixture.linux OffloadBundler "../build/./tools//bin" eq_refl).
Defined.

(** ** The version extractor, continued *)

(** The world [w] with another answer to [subprocess.run]. *)
Definition with_run_shell (w : World)
           (run : string -> result CompletedProcess) : World :=
  {| os_name := os_name w;
     environ := environ w;
     access_X_OK := access_X_OK w;
     listdir := listdir w;
     is_dir := is_dir w;
     run_shell := run;
     decode := decode w;
     re_search := re_search w |}.

(** One query is one command: whatever the arguments and the host,
    [getVersion] hands exactly one command line to the shell and makes no
    other host call.  The exit status of the command plays no part: with
    the same output and any other status the result is the same. *)
Theorem getVersion_one_command_status_ignored :
  forall (w : World) (executable versionFlag regex : string) (t : trace),
    snd (getVersion w executable versionFlag regex t)
    = (t ++ [EvRun (version_command executable versionFlag)])%list
    /\ (forall completed status,
           run_shell w (version_command executable versionFlag) = Ok completed ->
           fst (getVersion
                  (with_run_shell w (fun _ => Ok (mkCompleted status (stdout completed))))
                  executable versionFlag regex t)
           = fst (getVersion w executable versionFlag regex t)).
Proof.
  intros w executable versionFlag regex t. split.
  - rewrite getVersion_eq. reflexivity.
  - intros completed status Hrun. rewrite !getVersion_eq. cbv zeta. cbn [fst].
    cbn [with_run_shell run_shell decode re_search stdout].
    answer Hrun. reflexivity.
Qed.

Lemma getVersion_one_command_status_ignored_witness :
  fst (getVersion
         (with_run_shell Fixture.linux
            (fun _ => Ok (mkCompleted 1 ("clang version 17.0.2 (...)" ++ String PyStr.LF ""))))
         "/opt/rocm/lib/llvm/bin/amdclang++" "--version" default_regex [])
  = Ok (PyString "17.0.2").
Proof.
  exact (proj2 (getVersion_one_command_status_ignored
                  Fixture.linux "/opt/rocm/lib/llvm/bin/amdclang++" "--version"
                  default_regex [])
               (mkCompleted 0 ("clang version 17.0.2 (...)" ++ String PyStr.LF ""))
               1%Z eq_refl).
Defined.

(** The first group has to be there.  When the pattern matches but has no
    group, [match.group(1)] fails and [getVersion] raises its
    [RuntimeError], though a match was found; when the pattern has a first
    group that took no part in the match, [getVersion] returns [None]
    instead of a string. *)
Theorem getVersion_pattern_without_first_group :
  forall (w : World) (executable versionFlag regex : string)
         (completed : CompletedProcess) (text : string) (t : trace),
    run_shell w (version_command executable versionFlag) = Ok completed ->
    decode w (stdout completed) = Ok text ->
    (forall whole,
        re_search w regex (PyStr.strip text) true = Ok (Some [whole]) ->
        fst (getVersion w executable versionFlag regex t)
        = Raise (Exn RuntimeError
            ("Failed to get version when calling "
               ++ version_command executable versionFlag ++ ": no such group")))
    /\ (forall whole others,
           re_search w regex (PyStr.strip text) true
           = Ok (Some (whole :: None :: others)) ->
           fst (getVersion w executable versionFlag regex t) = Ok PyNone).
Proof.
  intros w executable versionFlag regex completed text t Hrun Hdec. split.
  - intros whole Hre. rewrite getVersion_eq. cbv zeta.
    answer Hrun. answer Hdec. answer Hre. reflexivity.
  - intros whole others Hre. rewrite getVersion_eq. cbv zeta.
    answer Hrun. answer Hdec. answer Hre. reflexivity.
Qed.

Lemma getVersion_pattern_without_first_group_witness :
  fst (getVersion Fixture.linux "/opt/rocm/lib/llvm/bin/amdclang++" "--version"
                  "version" [])
  = Raise (Exn RuntimeError
      ("Failed to get version when calling "
         ++ version_command "/opt/rocm/lib/llvm/bin/amdclang++" "--version"
         ++ ": no such group"))
  /\ fst (getVersion Fixture.linux "/opt/rocm/lib/llvm/bin/amdclang++" "--version"
                     "(\d)?version" [])
     = Ok PyNone.
Proof.
  split.
  - exact (proj1 (getVersion_pattern_without_first_group
                    Fixture.linux "/opt/rocm/lib/llvm/bin/amdclang++" "--version"
                    "version"
                    (mkCompleted 0 ("clang version 17.0.2 (...)" ++ String PyStr.LF ""))
                    ("clang version 17.0.2 (...)" ++ String PyStr.LF "") []
                    eq_refl eq_refl)
                 (Some "version") eq_refl).
  - exact (proj2 (getVersion_pattern_without_first_group
                    Fixture.linux "/opt/rocm/lib/llvm/bin/amdclang++" "--version"
                    "(\d)?version"
                    (mkCompleted 0 ("clang version 17.0.2 (...)" ++ String PyStr.LF ""))
                    ("clang version 17.0.2 (...)" ++ String PyStr.LF "") []
                    eq_refl eq_refl)
                 (Some "version") [] eq_refl).
Defined.

(** ** The import of the module *)

(** On POSIX the import asks nothing of the host and sets the two
    directories to [/opt/rocm/bin] and [/opt/rocm/lib/llvm/bin].  On
    Windows it needs the ROCm root: when [C:\Program Files\AMD\ROCm]
    cannot be listed, the error of the listing ends the import, with no
    other host call made. *)
Theorem import_module_posix_fixed_windows_needs_root :
  forall (w : World) (t : trace),
    (os_name w = posix ->
     import_module w t
     = (Ok (mkGlobals (Path posix "/opt/rocm/bin") (Path posix "/opt/rocm/lib/llvm/bin")),
        t)
     /\ str posix (Path posix "/opt/rocm/bin") = "/opt/rocm/bin"
     /\ str posix (Path posix "/opt/rocm/lib/llvm/bin") = "/opt/rocm/lib/llvm/bin")
    /\ (os_name w = nt ->
        forall e,
          listdir w "C:\Program Files\AMD\ROCm" = Raise e ->
          import_module w t = (Raise e, (t ++ [EvListdir "C:\Program Files\AMD\ROCm"])%list)).
Proof.
  intros w t. split.
  - intros Hos. unfold import_module. cbv zeta. rewrite Hos. repeat split.
  - intros Hos e Hls. unfold import_module. cbv zeta. rewrite Hos.
    unfold bind at 1. rewrite windowsLatestRocmBin_eq.
    change (str nt (Path nt "C:/Program Files/AMD/ROCm"))
      with "C:\Program Files\AMD\ROCm".
    rewrite Hls. reflexivity.
Qed.

Lemma import_module_posix_fixed_windows_needs_root_witness :
  import_module Fixture.linux []
  = (Ok (mkGlobals (Path posix "/opt/rocm/bin") (Path posix "/opt/rocm/lib/llvm/bin")), [])
  /\ import_module (Fixture.host nt None [] [] []) []
     = (Raise (Exn FileNotFoundError
          "No such file or directory: 'C:\Program Files\AMD\ROCm'"),
        [EvListdir "C:\Program Files\AMD\ROCm"]).
Proof.
  split.
  - exact (proj1 (proj1 (import_module_posix_fixed_windows_needs_root Fixture.linux [])
                        eq_refl)).
  - exact (proj2 (import_module_posix_fixed_windows_needs_root
                    (Fixture.host nt None [] [] []) [])
                 eq_refl _ eq_refl).
Defined.

(** On Windows an import that succeeds leaves the same directory in both
    globals - the [bin] directory of a version directory of the root -
    and has listed the root twice to get it. *)
Theorem import_module_windows_same_directory_twice :
  forall (w : World) (t : trace) (g : Globals),
    os_name w = nt ->
    fst (import_module w t) = Ok g ->
    ROCM_LLVM_BIN_PATH g = ROCM_BIN_PATH g
    /\ (exists names latest,
           listdir w "C:\Program Files\AMD\ROCm" = Ok names
           /\ In latest (version_dirs w (Path nt "C:/Program Files/AMD/ROCm") names)
           /\ ROCM_BIN_PATH g = make_child_relpath latest "bin"
           /\ snd (import_module w t)
              = (t ++ (EvListdir "C:\Program Files\AMD\ROCm"
                         :: map (fun d => EvIsDir (str nt d))
                                (map (make_child_relpath
                                        (Path nt "C:/Program Files/AMD/ROCm")) names))
                   ++ (EvListdir "C:\Program Files\AMD\ROCm"
                         :: map (fun d => EvIsDir (str nt d))
                                (map (make_child_relpath
                                        (Path nt "C:/Program Files/AMD/ROCm")) names)))%list).
Proof.
  intros w t g Hos Hok.
  assert (Hfirst : exists b,
             fst (_windowsLatestRocmBin w "C:/Program Files/AMD/ROCm" t) = Ok b).
  { unfold import_module in Hok. cbv zeta in Hok. rewrite Hos in Hok.
    unfold bind at 1 in Hok.
    destruct (_windowsLatestRocmBin w "C:/Program Files/AMD/ROCm" t) as [[e|b] t1];
      [discriminate Hok|]. exists b. reflexivity. }
  destruct Hfirst as [b0 Hfirst].
  destruct (windowsLatestRocmBin_ok w _ t b0 Hfirst) as (names & Hls & Hdirs).
  pose proof (fun t' => windowsLatestRocmBin_listed w _ names t' Hls Hdirs) as Heq.
  change (str nt (Path nt "C:/Program Files/AMD/ROCm"))
    with "C:\Program Files\AMD\ROCm" in Hls, Heq.
  revert Hok. unfold import_module. cbv zeta. rewrite Hos.
  unfold bind at 1. rewrite Heq.
  destruct (Builtins.max (version_dirs w (Path nt "C:/Program Files/AMD/ROCm") names)
                         version_key) as [e|latest] eqn:Hmax;
    cbn [rbind]; [discriminate|].
  unfold Ok at 1. cbv beta iota.
  unfold bind at 1. rewrite Heq.
  cbn [rbind]. unfold Ok at 1, ret. cbv beta iota. cbn [fst snd].
  intros H. injection H as <-. cbn [ROCM_BIN_PATH ROCM_LLVM_BIN_PATH].
  split; [reflexivity|]. exists names, latest.
  split; [exact Hls|]. split; [|split; [reflexivity|]].
  - unfold Builtins.max in Hmax.
    destruct (version_dirs w (Path nt "C:/Program Files/AMD/ROCm") names)
      as [|x xs] eqn:Hv; [discriminate|].
    assert (Hkeys : forall d, In d (x :: xs) -> exists a b, version_key d = Ok [a; b]).
    { intros d Hd. rewrite <- Hv in Hd. unfold version_dirs in Hd.
      apply filter_In in Hd as [_ Hd]. apply andb_true_iff in Hd as [_ Hd].
      apply version_key_pair. exact Hd. }
    destruct (max_greatest version_key (x :: xs) ltac:(discriminate) Hkeys)
      as (m & ma & mb & Hm & Hin & _).
    unfold Builtins.max in Hm. rewrite Hmax in Hm. injection Hm as <-. exact Hin.
  - unfold bind at 1. rewrite Heq. cbn [rbind]. unfold Ok at 1. cbv beta iota.
    unfold bind at 1. rewrite Heq. cbn [rbind]. unfold Ok at 1. cbv beta iota.
    cbn [snd]. rewrite <- app_assoc. reflexivity.
Qed.

Lemma import_module_windows_same_directory_twice_witness :
  os_name Fixture.windows = nt
  /\ fst (import_module Fixture.windows []) = Ok Fixture.windows_globals
  /\ ROCM_LLVM_BIN_PATH Fixture.windows_globals = ROCM_BIN_PATH Fixture.windows_globals.
Proof.
  split; [reflexivity|]. split; [reflexivity|].
  exact (proj1 (import_module_windows_same_directory_twice
                  Fixture.windows [] Fixture.windows_globals eq_refl eq_refl)).
Defined.

(** ** Resolving what was resolved

    On POSIX, printing a path and parsing the print gives the path back,
    for the paths that [Path] and [/] build; so a result of the resolver,
    given to it again, is accepted and found executable as it stands. *)

(** A component as [Path] keeps them: not empty, not a dot, no slash. *)
Definition good_component (x : string) : bool :=
  keep_component x && negb (PyStr.contains_char "/" x).

(** The shape of the paths of [PosixPath]. *)
Definition posix_wf (p : PurePath) : Prop :=
  drv p = ""
  /\ (root p = "" \/ root p = "/" \/ root p = "//")
  /\ forallb good_component (tail p) = true.

Lemma split_pieces_without_sep (sep : ascii) (s x : string) :
  In x (PyStr.split sep s) -> PyStr.contains_char sep x = false.
Proof.
  revert x. induction s as [|c s IH]; intros x; cbn.
  - intros [<-|[]]. reflexivity.
  - destruct (Ascii.eqb c sep) eqn:Ec.
    + intros [<-|Hin]; [reflexivity | apply IH; exact Hin].
    + pose proof (split_nonempty sep s) as Hne.
      destruct (PyStr.split sep s) as [|p ps]; [contradiction|].
      intros [<-|Hin].
      * cbn. rewrite Ec. apply IH. left. reflexivity.
      * apply IH. right. exact Hin.
Qed.

Lemma kept_pieces_good (rel : string) :
  forallb good_component (filter keep_component (PyStr.split "/" rel)) = true.
Proof.
  apply forallb_forall. intros x Hx. apply filter_In in Hx as [Hin Hk].
  unfold good_component. rewrite Hk, (split_pieces_without_sep "/" rel x Hin).
  reflexivity.
Qed.

Lemma Path_posix_wf (s : string) : posix_wf (Path posix s).
Proof.
  unfold posix_wf, Path. destruct (PyStr.is_empty s).
  - cbn. auto.
  - cbn [splitroot]. unfold posix_splitroot.
    destruct (PyStr.char_is "/" (PyStr.first s)).
    + destruct (Nat.eqb _ 2); cbn [drv root tail sep];
        (split; [reflexivity|]); (split; [auto | apply kept_pieces_good]).
    + cbn [drv root tail sep]. split; [reflexivity|].
      split; [auto | apply kept_pieces_good].
Qed.

Lemma join_posix_wf (p q : PurePath) :
  posix_wf p -> posix_wf q -> posix_wf (join_parsed_parts p q).
Proof.
  intros (Hdp & Hrp & Htp) (Hdq & Hrq & Htq). unfold join_parsed_parts.
  rewrite Hdq, Hdp. cbn [PyStr.is_empty negb andb].
  destruct (PyStr.is_empty (root q)); cbn [negb].
  - unfold posix_wf. cbn [drv root tail]. split; [reflexivity|].
    split; [exact Hrp|]. rewrite forallb_app, Htp, Htq. reflexivity.
  - repeat split; assumption.
Qed.

Lemma filter_keep_good (l : list string) :
  forallb good_component l = true -> filter keep_component l = l.
Proof.
  induction l as [|x l IH]; [reflexivity|]. cbn.
  intros H. apply andb_true_iff in H as [Hx Hl].
  unfold good_component in Hx. apply andb_true_iff in Hx as [Hk _].
  rewrite Hk, (IH Hl). reflexivity.
Qed.

Lemma split_join_good (l : list string) :
  forallb good_component l = true -> l <> [] ->
  PyStr.split "/" (PyStr.join "/" l) = l.
Proof.
  induction l as [|x l IH]; [contradiction|]. intros H _.
  cbn in H. apply andb_true_iff in H as [Hx Hl].
  unfold good_component in Hx. apply andb_true_iff in Hx as [_ Hx].
  apply negb_true_iff in Hx.
  destruct l as [|y l].
  - cbn. apply ScanFacts.split_no_sep. exact Hx.
  - replace (PyStr.join "/" (x :: y :: l))
      with (x ++ String "/" (PyStr.join "/" (y :: l))) by reflexivity.
    rewrite ScanFacts.split_app_sep by exact Hx.
    rewrite IH; [reflexivity | exact Hl | discriminate].
Qed.

(** The print of the components starts with no slash. *)
Lemma join_good_first (l : list string) :
  forallb good_component l = true ->
  PyStr.lstrip_char "/" (PyStr.join "/" l) = PyStr.join "/" l
  /\ PyStr.char_is "/" (PyStr.first (PyStr.join "/" l)) = false
  /\ (l <> [] -> PyStr.is_empty (PyStr.join "/" l) = false).
Proof.
  destruct l as [|x l]; [cbn; repeat split; contradiction|].
  cbn [forallb]. intros H. apply andb_true_iff in H as [Hx _].
  unfold good_component, keep_component in Hx.
  destruct x as [|c x]; [discriminate|].
  assert (Hc : Ascii.eqb c "/" = false).
  { apply andb_true_iff in Hx as [_ Hx]. apply negb_true_iff in Hx.
    cbn in Hx. apply orb_false_iff in Hx as [Hx _]. exact Hx. }
  assert (Hj : exists rest, PyStr.join "/" (String c x :: l) = String c rest).
  { unfold PyStr.join. destruct l; cbn; eexists; reflexivity. }
  destruct Hj as [rest ->].
  cbn [PyStr.lstrip_char PyStr.first PyStr.char_is PyStr.is_empty].
  rewrite (Ascii.eqb_sym "/" c), Hc. repeat split.
Qed.

Lemma str_Path_roundtrip_posix (p : PurePath) :
  posix_wf p -> Path posix (str posix p) = p.
Proof.
  destruct p as [d r tl]. intros (Hd & Hr & Ht). cbn [drv root tail] in *.
  subst d. destruct (join_good_first tl Ht) as (Hstrip & Hfirst & Hne).
  unfold str. cbv zeta. cbn [drv root tail]. unfold sep_str. cbn [sep].
  destruct Hr as [-> | [-> | ->]].
  - cbn [append]. destruct tl as [|x tl]; [reflexivity|].
    rewrite (Hne ltac:(discriminate)). unfold Path.
    rewrite (Hne ltac:(discriminate)). cbn [splitroot]. unfold posix_splitroot.
    rewrite Hfirst. cbn [sep].
    rewrite split_join_good, filter_keep_good by (try exact Ht; discriminate).
    reflexivity.
  - cbn [append PyStr.is_empty]. unfold Path. cbn [PyStr.is_empty splitroot].
    unfold posix_splitroot. cbn [PyStr.first PyStr.char_is PyStr.lstrip_char].
    rewrite Ascii.eqb_refl, Hstrip. cbn [String.length].
    replace (S (String.length (PyStr.join "/" tl)) - String.length (PyStr.join "/" tl))
      with 1 by lia.
    cbn [Nat.eqb sep]. f_equal.
    destruct tl as [|x tl]; [reflexivity|].
    rewrite split_join_good, filter_keep_good by (try exact Ht; discriminate).
    reflexivity.
  - cbn [append PyStr.is_empty]. unfold Path. cbn [PyStr.is_empty splitroot].
    unfold posix_splitroot. cbn [PyStr.first PyStr.char_is PyStr.lstrip_char].
    rewrite Ascii.eqb_refl, Hstrip. cbn [String.length].
    replace (S (S (String.length (PyStr.join "/" tl))) - String.length (PyStr.join "/" tl))
      with 2 by lia.
    cbn [Nat.eqb sep]. f_equal.
    destruct tl as [|x tl]; [reflexivity|].
    rewrite split_join_good, filter_keep_good by (try exact Ht; discriminate).
    reflexivity.
Qed.

Lemma canonical_nonempty (o : OsName) (r : Role) : canonical o r <> "".
Proof. destruct o, r; discriminate. Qed.

Lemma last_app_nonempty {A} (l1 l2 : list A) (d : A) :
  l2 <> [] -> last (l1 ++ l2) d = last l2 d.
Proof.
  intros Hne. induction l1 as [|x l1 IH]; [reflexivity|].
  cbn [app]. destruct (l1 ++ l2)%list eqn:E.
  - apply app_eq_nil in E as [_ E]. contradiction.
  - exact IH.
Qed.

(** Under a POSIX directory, a path with components keeps its final one. *)
Lemma name_join_posix (p q : PurePath) :
  drv q = "" -> tail q <> [] ->
  Pathlib.name (join_parsed_parts p q) = Pathlib.name q.
Proof.
  intros Hd Ht. unfold join_parsed_parts. rewrite Hd.
  cbn [PyStr.is_empty negb andb].
  destruct (PyStr.is_empty (root q)); cbn [negb].
  - unfold Pathlib.name. cbn [tail]. apply last_app_nonempty. exact Ht.
  - destruct (PyStr.is_empty (drv p)); reflexivity.
Qed.

Lemma search_paths_posix_wf (w : World) (PATH : string) (d : PurePath) :
  os_name w = posix ->
  In d (search_paths w Fixture.posix_globals PATH) -> posix_wf d.
Proof.
  intros Hos Hin. unfold search_paths in Hin. rewrite Hos in Hin.
  destruct Hin as [<-|[<-|Hin]]; [apply Path_posix_wf|apply Path_posix_wf|].
  apply in_map_iff in Hin as (s & <- & _). apply Path_posix_wf.
Qed.

(** On POSIX, with the globals that the import set, the resolver accepts
    its own results: a path that [validateToolchain] returned for a name,
    given back to it on the same host, is returned unchanged after the one probe of the path itself,
    without any search. *)
Theorem validateToolchain_idempotent_posix :
  forall (w : World) (g : Globals) (name PATH p : string) (t t' : trace),
    os_name w = posix ->
    fst (import_module w []) = Ok g ->
    environ w "PATH" = Some PATH ->
    fst (validateToolchain w g [name] t) = Ok (One p) ->
    validateToolchain w g [p] t'
    = (Ok (One p),
       (t' ++ [EvEnviron "PATH"; EvAccess (str posix (Path posix p))])%list).
Proof.
  intros w g name PATH p t t' Hos Himp HP Hres.
  apply (import_posix_globals w g Hos) in Himp. subst g.
  rewrite (validateToolchain_one w _ name PATH t HP) in Hres.
  unfold bind in Hres. rewrite validateExecutable_cases in Hres.
  destruct (supported_any w name) eqn:Hs; [|discriminate Hres].
  assert (Hgoal : supported_any w p = true /\ directly_executable w p = Ok true).
  { destruct (directly_executable w name) as [e|[]] eqn:Hd.
    - discriminate Hres.
    - cbn in Hres. injection Hres as <-. split; [exact Hs | exact Hd].
    - destruct (probe_outcome w name (search_paths w Fixture.posix_globals PATH)
                  ((t ++ [EvEnviron "PATH"])
                     ++ [EvAccess (str (os_name w) (Path (os_name w) name))])%list)
        as (r & evs & Hrun & _ & _ & Hr).
      rewrite Hrun in Hres.
      destruct r as [e|[q|]]; [discriminate Hres| |discriminate Hres].
      cbn in Hres. injection Hres as <-.
      destruct Hr as (d & Hin & Hq & Hacc).
      apply supported_any_true in Hs as [r Hr].
      assert (Hname : Pathlib.name (Path posix name) = canonical posix r).
      { rewrite <- Hos. apply supported_spec in Hr as [-> | H];
          [apply canonical_is_own_name | exact H]. }
      assert (Htail : tail (Path posix name) <> []).
      { intros E. unfold Pathlib.name in Hname. rewrite E in Hname.
        symmetry in Hname. exact (canonical_nonempty posix r Hname). }
      assert (Hwf : posix_wf (join_parsed_parts d (Path posix name))).
      { apply join_posix_wf;
          [apply (search_paths_posix_wf w PATH d Hos Hin) | apply Path_posix_wf]. }
      assert (Hparse : Path posix q = join_parsed_parts d (Path posix name)).
      { rewrite Hq. unfold candidate, truediv. rewrite Hos.
        apply str_Path_roundtrip_posix. exact Hwf. }
      split.
      + apply supported_any_true. exists r. apply supported_spec. right.
        rewrite Hos, Hparse.
        rewrite name_join_posix; [exact Hname | apply posix_drv_empty | exact Htail].
      + unfold directly_executable. rewrite Hos, Hparse.
        rewrite Hq in Hacc. unfold candidate, truediv in Hacc. rewrite Hos in Hacc.
        exact Hacc. }
  destruct Hgoal as [Hsp Hdp].
  rewrite (validateToolchain_one w _ p PATH t' HP).
  rewrite (bind_ok _ _ _ _ _ (validateExecutable_direct w p _ _ Hsp Hdp)).
  unfold ret. rewrite Hos, <- app_assoc. reflexivity.
Qed.

Lemma validateToolchain_idempotent_posix_witness :
  fst (validateToolchain Fixture.linux Fixture.posix_globals ["amdclang++"] [])
  = Ok (One "/opt/rocm/lib/llvm/bin/amdclang++")
  /\ validateToolchain Fixture.linux Fixture.posix_globals
       ["/opt/rocm/lib/llvm/bin/amdclang++"] []
     = (Ok (One "/opt/rocm/lib/llvm/bin/amdclang++"),
        [EvEnviron "PATH"; EvAccess "/opt/rocm/lib/llvm/bin/amdclang++"]).
Proof.
  split; [reflexivity|].
  exact (validateToolchain_idempotent_posix
           Fixture.linux Fixture.posix_globals "amdclang++" "/usr/local/bin:/usr/bin"
           "/opt/rocm/lib/llvm/bin/amdclang++" [] [] eq_refl eq_refl eq_refl eq_refl).
Defined.

(** The scan fails in three ways only: the root cannot be listed, and the
    error is that of the listing; or [is_dir] fails for an entry of the
    root, and the error is that one; or every entry is examined and none
    is a directory named as a version, and the error is that of [max] on
    an empty sequence.  The conversion of the names to numbers never
    fails, since only names of digits and one dot reach it. *)
Theorem windowsLatestRocmBin_errors :
  forall (w : World) (path : string) (t : trace) (e : exn),
    fst (_windowsLatestRocmBin w path t) = Raise e ->
    listdir w (str nt (Path nt path)) = Raise e
    \/ (exists names,
           listdir w (str nt (Path nt path)) = Ok names
           /\ ((exists n,
                   In n names
                   /\ is_dir w (str nt (make_child_relpath (Path nt path) n)) = Raise e)
               \/ ((forall n, In n names ->
                              exists b,
                                is_dir w (str nt (make_child_relpath (Path nt path) n))
                                = Ok b)
                   /\ version_dirs w (Path nt path) names = []
                   /\ e = Exn ValueError "max() arg is an empty sequence"))).
Proof.
  intros w path t e. rewrite windowsLatestRocmBin_eq.
  destruct (listdir w (str nt (Path nt path))) as [e'|names].
  - cbn. intros H. injection H as <-. left. reflexivity.
  - cbv zeta. cbn [fst]. intros H. right. exists names. split; [reflexivity|].
    destruct (fst (scan_entries w (fun d => version_pattern_match (name d))
                                (map (make_child_relpath (Path nt path)) names)))
      as [e'|vs] eqn:Hs.
    + left. cbn in H. injection H as <-.
      destruct (scan_entries_raise w _ _ e' Hs) as (d & Hd & Hraise).
      apply in_map_iff in Hd as (n & <- & Hn). exists n. split; assumption.
    + right. cbn [rbind] in H.
      assert (Hans : forall d, In d (map (make_child_relpath (Path nt path)) names) ->
                               exists b, is_dir w (str nt d) = Ok b)
        by exact (scan_entries_ok w _ _ vs Hs).
      split; [intros n Hn; apply Hans, in_map, Hn|].
      rewrite (scan_entries_answered w _ _ Hans) in Hs. cbn [fst] in Hs.
      change (Ok (version_dirs w (Path nt path) names) = Ok vs) in Hs.
      injection Hs as <-.
      destruct (version_dirs w (Path nt path) names) as [|x xs] eqn:Hv.
      * cbn in H. injection H as <-. split; reflexivity.
      * exfalso.
        assert (Hkeys : forall d, In d (x :: xs) -> exists a b, version_key d = Ok [a; b]).
        { intros d Hd. rewrite <- Hv in Hd. unfold version_dirs in Hd.
          apply filter_In in Hd as [_ Hd]. apply andb_true_iff in Hd as [_ Hd].
          apply version_key_pair. exact Hd. }
        destruct (max_greatest version_key (x :: xs) ltac:(discriminate) Hkeys)
          as (m & ma & mb & Hm & _).
        rewrite Hm in H. discriminate H.
Qed.

Lemma windowsLatestRocmBin_errors_witness :
  _windowsLatestRocmBin Fixture.windows_entry_denied "C:/Program Files/AMD/ROCm" []
  = (Raise (Fixture.access_denied "C:\\Program Files\\AMD\\ROCm\\locked"),
     [EvListdir "C:\Program Files\AMD\ROCm";
      EvIsDir "C:\Program Files\AMD\ROCm\9.5";
      EvIsDir "C:\Program Files\AMD\ROCm\locked"])
  /\ (listdir Fixture.windows_entry_denied "C:\Program Files\AMD\ROCm"
      = Raise (Fixture.access_denied "C:\\Program Files\\AMD\\ROCm\\locked")
      \/ exists names,
           listdir Fixture.windows_entry_denied "C:\Program Files\AMD\ROCm" = Ok names
           /\ ((exists n,
                   In n names
                   /\ is_dir Fixture.windows_entry_denied
                        (str nt (make_child_relpath
                                   (Path nt "C:/Program Files/AMD/ROCm") n))
                      = Raise (Fixture.access_denied
                                 "C:\\Program Files\\AMD\\ROCm\\locked"))
               \/ ((forall n, In n names ->
                              exists b,
                                is_dir Fixture.windows_entry_denied
                                  (str nt (make_child_relpath
                                             (Path nt "C:/Program Files/AMD/ROCm") n))
                                = Ok b)
                   /\ version_dirs Fixture.windows_entry_denied
                        (Path nt "C:/Program Files/AMD/ROCm") names = []
                   /\ Fixture.access_denied "C:\\Program Files\\AMD\\ROCm\\locked"
                      = Exn ValueError "max() arg is an empty sequence"))).
Proof.
  split; [reflexivity|].
  exact (windowsLatestRocmBin_errors
           Fixture.windows_entry_denied "C:/Program Files/AMD/ROCm" []
           (Fixture.access_denied "C:\\Program Files\\AMD\\ROCm\\locked") eq_refl).
Defined.
